(* ===== verification/_CoqProject ===== *)
-Q . S2P
Prelude.v
PyStr.v
Runtime.v
Sha256.v
Commitment.v
Winner.v
Console.v
Game.v
Protocol.v
Orchestrator.v
