(* ===== verification/Prelude.v ===== *)
(** * A verified model of crypto-rps-game (src/game.py)

    The program is a two-player rock-paper-scissors game on one terminal,
    played by commit and reveal.  Each player types a move, which the program
    reads until it is one of the three move names, draws a 16-byte secret
    from the operating system and prints the SHA-256 digest of move and
    secret joined (the commitment).  When both commitments are out, the moves
    and secrets are typed again (the reveal), the program recomputes the two
    digests, and prints either the winner or which player's reveal does not
    match.

    ** The parts of the program and the files that model them

    - [generate_commitment] (src/game.py, lines 10-14) is
      [Commitment.generate_commitment]: the two strings joined, encoded in
      UTF-8, hashed, printed in hexadecimal.  The comparison of a recomputed
      commitment with a stored one (lines 91 and 93 of [play_game]) is
      [Commitment.verify_commitment].
    - [determine_winner] (lines 17-31) is [Winner.determine_winner], on
      arbitrary strings as in the source, its dictionary a finite map
      [Winner.winning_moves].  The resolver of the specification, on an
      enumerated type of moves, is [Winner.resolve].
    - [play_game] (lines 34-112) is [Game.play_game], a computation in the
      monad [Console.IO].  Its phases are [Game.commit_turn] (which the
      source writes out twice, for A and for B), with the validation loop
      [Game.while_invalid] and the secret [Game.new_secret];
      [Game.reveal_phase]; [Game.verify_phase]; and [Game.report].  The
      program started from the command line (lines 115-116) is [Game.main].
    - What the program calls in the Python runtime is modelled from the
      documentation of the runtime, since it is not code of the repository:
      [PyStr] has strings as lists of code points, [str.encode] (UTF-8, with
      its exception on surrogates), [bytes.hex], [str.lower] on ASCII, and
      the operator [in]; [Sha256] has SHA-256 as FIPS 180-4 defines it, on
      32-bit words kept in [Z] with the reduction modulo 2^32 written out;
      [Runtime] has the two interfaces ([Hashlib], [Unicode]) through which
      the components see the hash and the case mapping; [Console] has [print],
      [getpass], [input] and [os.urandom] as operations on an explicit world
      (the lines that will be typed, the bytes the system will supply) that
      record the events an observer sees.
    - [Protocol] states what a run of the game guarantees to the players.

    ** State and effects

    Python's exceptions are values of [result] (this file): [EOFError] from
    a read at the end of the input, [UnicodeEncodeError] from [str.encode].
    [Console.IO A] is [world -> result A * world * list event]: the state of
    the terminal and of the random source is passed explicitly, an exception
    ends the sequence, and the events are the trace.  The variables of
    [play_game] are the values bound in the monad; the source mutates nothing
    that is shared.

    ** What the theorems show

    - [Commitment]: the shape of a commitment (64 lower-case hexadecimal
      digits, or [UnicodeEncodeError], and exactly when); that it depends on
      move and secret through their concatenation only; binding as a
      reduction to a collision of the hash, for any implementation of
      [Hashlib] (no injectivity is assumed: a theorem concludes "or these two
      byte strings are a collision"); completeness and soundness of the
      check; known answers with SHA-256.
    - [Winner]: [determine_winner] characterised on all strings, the
      refinement to [resolve] on move names, the dominance cycle, symmetry,
      and its answer on strings that are no move names.
    - [Game]: the loop is the recursion on typed lines (equivalence with its
      one-step unfolding); the question for a move always ends, with a move
      name or with [EOFError]; what a commit turn stores; every input is a
      script (both moves eventually accepted, four reveal lines) or ends the
      program with [EOFError]; and [main_script], the whole run on a script:
      the lines and random bytes consumed, the events in order, the outcome.
    - [Protocol]: honest players get the resolver's outcome for the committed
      moves; a reveal that does not join to the committed text is reported
      and yields no result; the report is exact; a printed result is
      explained by the committed moves -- except that a reveal may cut the
      committed text elsewhere and present a move that is none, after which
      the program prints "Player B wins!" ([main_forged_reveal]).

    ** Bounds and fuel

    No definition takes fuel.  The validation loop is a structural recursion
    on the list of lines still to be typed ([Game.reprompt]): each turn of
    the loop reads one line, so a finite input ends it, with [EOFError] when
    no line is accepted.  An unbounded interactive input is outside the
    model.  SHA-256 is defined for messages of every length; its length field
    is taken modulo 2^64 as in the standard.  The random source is a function
    from positions to bytes: the theorems hold for every such function, and
    say nothing of probabilities.

    ** What is not modelled

    Hiding (that a commitment tells nothing of the move) is a statement about
    the distribution of the secret and has no theorem here.  [getpass] is a
    read like [input]: the suppression of the echo, and the difference
    between the terminal and the standard input, are not modelled.
    [str.lower] outside ASCII is left to the interface [Runtime.Unicode].
    Network transport, several rounds and timeouts are absent from the source.

    ** This file

    The prelude: the [result] type that carries Python's exceptions as
    values, its monad instances, conversions between bytes and integers, the
    hint database and tactics of the development, and the list lemmas the
    components share. *)

From Stdlib Require Import ZArith NArith Lia ZifyBool ZifyN ZifyNat List.
From Stdlib Require Import Strings.Byte.
From stdpp Require Import prelude.

#[local] Open Scope Z_scope.

(** ** Exceptions as values *)

(** The two exceptions the program can raise: [input]/[getpass] at the end of
    the input, and [str.encode] on a string that UTF-8 cannot represent. *)
Inductive exn : Type :=
| EOFError
| UnicodeEncodeError.

#[export] Instance exn_eq_dec : EqDecision exn.
Proof. solve_decision. Defined.

Inductive result (A : Type) : Type :=
| Ok (a : A)
| Raise (e : exn).
Arguments Ok {A} a.
Arguments Raise {A} e.

#[export] Instance result_eq_dec `{EqDecision A} : EqDecision (result A).
Proof. solve_decision. Defined.

#[export] Instance result_ret : MRet result := @Ok.
#[export] Instance result_bind : MBind result := fun A B k r =>
  match r with
  | Ok a => k a
  | Raise e => Raise e
  end.
#[export] Instance result_fmap : FMap result := fun A B f r =>
  match r with
  | Ok a => Ok (f a)
  | Raise e => Raise e
  end.

#[export] Instance Ok_inj {A} : Inj (=) (=) (@Ok A).
Proof. by intros a b [= ->]. Qed.

Definition is_Ok {A} (r : result A) : bool :=
  match r with Ok _ => true | Raise _ => false end.

Definition result_to_option {A} (r : result A) : option A :=
  match r with Ok a => Some a | Raise _ => None end.

(** ** Bytes *)

Abbreviation byte := Byte.byte.

#[export] Instance byte_eq_dec : EqDecision byte := Byte.byte_eq_dec.

Definition byte_to_Z (b : byte) : Z := Z.of_N (Byte.to_N b).

(** The byte of the low eight bits of [z]. *)
Definition byte_of_Z (z : Z) : byte :=
  default x00 (Byte.of_N (Z.to_N (z mod 256))).

Definition byte_to_N (b : byte) : N := Byte.to_N b.
Definition byte_of_N (n : N) : byte := byte_of_Z (Z.of_N n).

(** ** Hint database and tactics of the development *)

Create HintDb rps discriminated.
Create Rewrite HintDb rps_rew.

(** Linear arithmetic with division and remainder by constants, on [Z], [N]
    and [nat], boolean comparisons included. *)
Ltac dlia := zify; Z.to_euclidean_division_equations; lia.

(** Case analysis on the scrutinee of the first [match] on a [result] or an
    [option] in the goal. *)
Ltac case_result :=
  match goal with
  | |- context [match ?r with Ok _ => _ | Raise _ => _ end] =>
      let E := fresh "E" in destruct r eqn:E
  | |- context [mbind _ ?r] =>
      let E := fresh "E" in destruct r eqn:E; simpl
  end.

(** Turn a successful bind in a hypothesis into its two halves. *)
Ltac inv_bind H :=
  match type of H with
  | mbind ?k ?r = Ok _ =>
      let E := fresh "E" in
      destruct r eqn:E; [simpl in H | discriminate H]
  end.

(** ** Lemmas on [result] *)

Section result_lemmas.
Context {A B : Type}.
Implicit Types (r : result A) (k : A -> result B).

Lemma bind_Ok_inv r k b :
  r ≫= k = Ok b <-> exists a, r = Ok a /\ k a = Ok b.
Proof.
  destruct r as [a|e]; simpl; split.
  - eauto.
  - intros (a' & [= <-] & ?); done.
  - done.
  - intros (? & ? & ?); done.
Qed.

Lemma bind_Raise_inv r k e :
  r ≫= k = Raise e <-> r = Raise e \/ exists a, r = Ok a /\ k a = Raise e.
Proof.
  destruct r as [a|e']; simpl; split.
  - eauto.
  - intros [[=]|(a' & [= <-] & ?)]; done.
  - intros [= ->]. by left.
  - intros [[= ->]|(? & [=] & _)]. done.
Qed.

Lemma fmap_Ok_inv (f : A -> B) r b :
  f <$> r = Ok b <-> exists a, r = Ok a /\ b = f a.
Proof.
  destruct r as [a|e]; simpl; split.
  - intros [= <-]; eauto.
  - intros (a' & [= <-] & ->); done.
  - done.
  - intros (? & [=] & _).
Qed.

Lemma is_Ok_true r : is_Ok r = true <-> exists a, r = Ok a.
Proof.
  destruct r; simpl; split; eauto; try done. intros [? [=]].
Qed.

End result_lemmas.

(** ** Lemmas on bytes *)

Lemma byte_to_Z_range b : 0 <= byte_to_Z b < 256.
Proof.
  unfold byte_to_Z. pose proof (Byte.to_N_bounded b). lia.
Qed.

Lemma byte_to_of_Z z : byte_to_Z (byte_of_Z z) = z mod 256.
Proof.
  unfold byte_to_Z, byte_of_Z.
  pose proof (Z.mod_pos_bound z 256 eq_refl) as Hr.
  destruct (Byte.of_N (Z.to_N (z mod 256))) as [b|] eqn:E; simpl.
  - apply Byte.to_of_N in E. rewrite E. lia.
  - apply Byte.of_N_None_iff in E. lia.
Qed.

Lemma byte_to_Z_inj b1 b2 : byte_to_Z b1 = byte_to_Z b2 -> b1 = b2.
Proof.
  unfold byte_to_Z. intros H%N2Z.inj.
  pose proof (Byte.of_to_N b1) as E1. pose proof (Byte.of_to_N b2) as E2.
  congruence.
Qed.

Lemma byte_of_to_Z b : byte_of_Z (byte_to_Z b) = b.
Proof.
  apply byte_to_Z_inj. rewrite byte_to_of_Z.
  apply Z.mod_small, byte_to_Z_range.
Qed.

Lemma byte_to_of_Z_small z : 0 <= z < 256 -> byte_to_Z (byte_of_Z z) = z.
Proof. intros. rewrite byte_to_of_Z. by apply Z.mod_small. Qed.

Lemma byte_to_N_range b : (byte_to_N b < 256)%N.
Proof. unfold byte_to_N. pose proof (Byte.to_N_bounded b). lia. Qed.

Lemma byte_to_of_N_small n : (n < 256)%N -> byte_to_N (byte_of_N n) = n.
Proof.
  intros. unfold byte_to_N, byte_of_N.
  apply N2Z.inj. change (byte_to_Z (byte_of_Z (Z.of_N n)) = Z.of_N n).
  apply byte_to_of_Z_small. lia.
Qed.

Lemma byte_of_to_N b : byte_of_N (byte_to_N b) = b.
Proof. apply byte_of_to_Z. Qed.

Lemma byte_to_N_inj b1 b2 : byte_to_N b1 = byte_to_N b2 -> b1 = b2.
Proof. intros H. apply byte_to_Z_inj. unfold byte_to_Z, byte_to_N in *. by rewrite H. Qed.

#[export] Hint Resolve byte_to_Z_range byte_to_N_range : rps.
#[export] Hint Rewrite byte_to_of_Z byte_of_to_Z byte_of_to_N : rps_rew.

(** ** Lemmas on lists *)

Section list_lemmas.
Context {A : Type}.
Implicit Types (l k : list A).

(** Two ways of cutting one list: one of the first parts is a prefix of the
    other. *)
Lemma app_eq_app_prefix l1 l2 k1 k2 :
  l1 ++ l2 = k1 ++ k2 -> l1 `prefix_of` k1 \/ k1 `prefix_of` l1.
Proof.
  revert k1. induction l1 as [|x l1 IH]; intros [|y k1] H; simpl in *.
  - left. done.
  - left. apply prefix_nil.
  - right. apply prefix_nil.
  - injection H as -> H. destruct (IH _ H) as [?|?].
    + left. by apply prefix_cons.
    + right. by apply prefix_cons.
Qed.

Lemma Forall_concat_map {B} (P : B -> Prop) (f : A -> list B) l :
  (forall x, Forall P (f x)) -> Forall P (concat (map f l)).
Proof.
  intros Hf. induction l; simpl; [constructor|].
  apply Forall_app; auto.
Qed.

Lemma length_concat_map_const {B} (f : A -> list B) n l :
  (forall x, length (f x) = n) -> length (concat (map f l)) = (n * length l)%nat.
Proof.
  intros Hf. induction l as [|x l IH]; simpl; [lia|].
  rewrite length_app, Hf, IH. lia.
Qed.

(** The first element with a decidable property cuts a list in two, unless
    no element has it. *)
Lemma list_split_first (P : A -> Prop) `{!forall x, Decision (P x)} l :
  (exists l1 x l2, l = l1 ++ x :: l2 /\ Forall (fun y => ~ P y) l1 /\ P x) \/
  Forall (fun y => ~ P y) l.
Proof.
  induction l as [|y l IH]; [by right|].
  destruct (decide (P y)) as [Hy|Hy].
  - left. by exists [], y, l.
  - destruct IH as [(l1 & x & l2 & -> & Hl1 & Hx)|Hl].
    + left. exists (y :: l1), x, l2. split_and!; [done|by constructor|done].
    + right. by constructor.
Qed.

End list_lemmas.
