(* ===== verification/PyStr.v ===== *)
(** * Python strings and bytes

    [str] values as sequences of Unicode code points, with the operations
    src/game.py applies to them: concatenation ([+]), equality, membership in
    a list, substring test ([in]), [str.lower], [str.encode] (UTF-8, strict)
    and [bytes.hex].  The decoders [utf8_decode] and [unhex] are the inverses
    used to state the round trips. *)

From Stdlib Require Import ZArith NArith Lia ZifyBool ZifyN ZifyNat List.
From Stdlib Require Import Strings.Byte Strings.Ascii Strings.String.
From stdpp Require Import prelude.
From S2P Require Import Prelude.

#[local] Open Scope N_scope.

(** ** Data *)

(** A code point is a number below [0x110000]; a Python [str] is a sequence of
    code points, lone surrogates included. *)
Abbreviation codepoint := N.
Abbreviation str := (list N).
Abbreviation bytes := (list byte).

Definition is_codepoint (c : codepoint) : Prop := c < 0x110000.
Definition is_surrogate (c : codepoint) : bool := (0xD800 <=? c) && (c <=? 0xDFFF).
Definition is_ascii (c : codepoint) : Prop := c < 128.

Definition str_wf (s : str) : Prop := Forall is_codepoint s.
Definition str_ascii (s : str) : Prop := Forall is_ascii s.

(** ** UTF-8 *)

(** The bytes of one code point (RFC 3629).  A surrogate, which a Python
    [str] can hold, has no encoding: [str.encode] raises. *)
Definition utf8_encode_cp (c : codepoint) : result bytes :=
  if c <? 0x80 then Ok [byte_of_N c]
  else if c <? 0x800 then
    Ok [byte_of_N (0xC0 + c / 64); byte_of_N (0x80 + c mod 64)]
  else if c <? 0x10000 then
    if is_surrogate c then Raise UnicodeEncodeError
    else Ok [byte_of_N (0xE0 + c / 4096); byte_of_N (0x80 + (c / 64) mod 64);
             byte_of_N (0x80 + c mod 64)]
  else if c <? 0x110000 then
    Ok [byte_of_N (0xF0 + c / 262144); byte_of_N (0x80 + (c / 4096) mod 64);
        byte_of_N (0x80 + (c / 64) mod 64); byte_of_N (0x80 + c mod 64)]
  else Raise UnicodeEncodeError.

(** [s.encode()]: the UTF-8 bytes of [s], or [UnicodeEncodeError]. *)
Fixpoint encode (s : str) : result bytes :=
  match s with
  | [] => Ok []
  | c :: s' =>
      bs ← utf8_encode_cp c;
      rest ← encode s';
      Ok (bs ++ rest)
  end.

Definition is_cont (n : N) : bool := (0x80 <=? n) && (n <? 0xC0).

(** Strict UTF-8 decoding: overlong forms, surrogates and values above
    [0x10FFFF] are refused. *)
Fixpoint utf8_decode (bs : bytes) : option str :=
  match bs with
  | [] => Some []
  | b0 :: r0 =>
      let n0 := byte_to_N b0 in
      if n0 <? 0x80 then cons n0 <$> utf8_decode r0
      else if n0 <? 0xC2 then None
      else if n0 <? 0xE0 then
        match r0 with
        | b1 :: r1 =>
            let n1 := byte_to_N b1 in
            if is_cont n1
            then cons ((n0 - 0xC0) * 64 + (n1 - 0x80)) <$> utf8_decode r1
            else None
        | _ => None
        end
      else if n0 <? 0xF0 then
        match r0 with
        | b1 :: b2 :: r2 =>
            let n1 := byte_to_N b1 in
            let n2 := byte_to_N b2 in
            let c := (n0 - 0xE0) * 4096 + (n1 - 0x80) * 64 + (n2 - 0x80) in
            if is_cont n1 && is_cont n2 && (0x800 <=? c) && negb (is_surrogate c)
            then cons c <$> utf8_decode r2
            else None
        | _ => None
        end
      else if n0 <? 0xF5 then
        match r0 with
        | b1 :: b2 :: b3 :: r3 =>
            let n1 := byte_to_N b1 in
            let n2 := byte_to_N b2 in
            let n3 := byte_to_N b3 in
            let c := (n0 - 0xF0) * 262144 + (n1 - 0x80) * 4096
                     + (n2 - 0x80) * 64 + (n3 - 0x80) in
            if is_cont n1 && is_cont n2 && is_cont n3
               && (0x10000 <=? c) && (c <? 0x110000)
            then cons c <$> utf8_decode r3
            else None
        | _ => None
        end
      else None
  end.

(** A string literal of the source: the code points of the UTF-8 text between
    the quotes. *)
Definition lit (s : string) : str :=
  default [] (utf8_decode (list_byte_of_string s)).
Arguments lit s%_string.
Arguments lit : simpl never.

(** ** Case *)

(** [str.lower] on ASCII: [A-Z] to [a-z], every other character kept. *)
Definition lower_cp (c : codepoint) : codepoint :=
  if (0x41 <=? c) && (c <=? 0x5A) then c + 32 else c.

Definition lower_ascii (s : str) : str := map lower_cp s.

(** ** Hexadecimal *)

(** The character of a hexadecimal digit, lower case. *)
Definition hex_digit (n : N) : codepoint :=
  if n <? 10 then 0x30 + n else 0x61 + (n - 10).

Definition hex_byte (b : byte) : str :=
  [hex_digit (byte_to_N b / 16); hex_digit (byte_to_N b mod 16)].

(** [bs.hex()]: two lower-case hexadecimal digits per byte. *)
Definition hex (bs : bytes) : str := concat (map hex_byte bs).

Definition is_hex_digit (c : codepoint) : bool :=
  ((0x30 <=? c) && (c <=? 0x39)) || ((0x61 <=? c) && (c <=? 0x66)).

Definition unhex_digit (c : codepoint) : option N :=
  if (0x30 <=? c) && (c <=? 0x39) then Some (c - 0x30)
  else if (0x61 <=? c) && (c <=? 0x66) then Some (c - 0x61 + 10)
  else None.

Fixpoint unhex (s : str) : option bytes :=
  match s with
  | [] => Some []
  | hi :: lo :: s' =>
      h ← unhex_digit hi;
      l ← unhex_digit lo;
      cons (byte_of_N (h * 16 + l)) <$> unhex s'
  | _ => None
  end.

(** ** Membership and substrings *)

(** [x in [a, b, c]]. *)
Definition in_list (x : str) (l : list str) : bool := bool_decide (x ∈ l).
Arguments in_list : simpl never.

Fixpoint starts_with (p s : str) : bool :=
  match p, s with
  | [], _ => true
  | a :: p', b :: s' => bool_decide (a = b) && starts_with p' s'
  | _ :: _, [] => false
  end.

(** [needle in hay] on strings: [needle] occurs in [hay] as a contiguous
    run. *)
Fixpoint contains (needle hay : str) : bool :=
  starts_with needle hay ||
  match hay with
  | [] => false
  | _ :: hay' => contains needle hay'
  end.

(** ** Tactics for the arithmetic of encodings *)

(** Name the quotient and the remainder of [c] by 64, keeping only the facts
    that define them. *)
Ltac split64 c q r :=
  pose proof (N.div_mod' c 64);
  pose proof (N.mod_lt c 64 ltac:(done));
  set (q := c / 64) in *; set (r := c mod 64) in *; clearbody q r.

(** Replace the condition of the first [if] of the goal by its value. *)
Ltac decide_test :=
  match goal with
  | |- context [if ?b then _ else _] =>
      first [ replace b with true by (symmetry; lia)
            | replace b with false by (symmetry; lia) ]
  end.

(** ** UTF-8: lemmas *)

Lemma div_4096 c : c / 4096 = c / 64 / 64.
Proof. by rewrite N.Div0.div_div. Qed.

Lemma div_262144 c : c / 262144 = c / 64 / 64 / 64.
Proof. by rewrite !N.Div0.div_div. Qed.

Lemma utf8_encode_cp_is_Ok c :
  is_Ok (utf8_encode_cp c) = (c <? 0x110000) && negb (is_surrogate c).
Proof.
  unfold utf8_encode_cp, is_surrogate. repeat case_match; simpl; lia.
Qed.

Lemma utf8_encode_cp_Raise c e :
  utf8_encode_cp c = Raise e -> e = UnicodeEncodeError.
Proof. unfold utf8_encode_cp. repeat case_match; congruence. Qed.

Lemma utf8_encode_cp_ascii c :
  is_ascii c -> utf8_encode_cp c = Ok [byte_of_N c].
Proof.
  unfold utf8_encode_cp, is_ascii. intros. by decide_test.
Qed.

Lemma utf8_encode_cp_length c bs :
  utf8_encode_cp c = Ok bs -> (1 <= length bs <= 4)%nat.
Proof.
  unfold utf8_encode_cp. repeat case_match; intros [= <-]; simpl; lia.
Qed.

(** Decoding undoes the encoding of one code point, whatever follows. *)
Lemma utf8_decode_encode_cp c bs rest :
  utf8_encode_cp c = Ok bs ->
  utf8_decode (bs ++ rest) = cons c <$> utf8_decode rest.
Proof.
  unfold utf8_encode_cp. rewrite div_262144, div_4096.
  split64 c q1 r1. split64 q1 q2 r2. split64 q2 q3 r3.
  repeat case_match; intros [= <-]; simpl;
    rewrite ?byte_to_of_N_small by lia;
    unfold is_cont, is_surrogate in *; repeat decide_test;
    do 2 f_equal; lia.
Qed.

Lemma encode_cons_Ok c s bs :
  encode (c :: s) = Ok bs <->
  exists b1 b2, utf8_encode_cp c = Ok b1 /\ encode s = Ok b2 /\ bs = b1 ++ b2.
Proof.
  simpl. rewrite bind_Ok_inv. setoid_rewrite bind_Ok_inv. split.
  - intros (b1 & ? & b2 & ? & [= <-]). eauto.
  - intros (b1 & b2 & ? & ? & ->). eauto.
Qed.

Lemma encode_app s1 s2 :
  encode (s1 ++ s2) = b1 ← encode s1; b2 ← encode s2; Ok (b1 ++ b2).
Proof.
  induction s1 as [|c s1 IH]; simpl.
  - by destruct (encode s2).
  - rewrite IH. destruct (utf8_encode_cp c); simpl; [|done].
    destruct (encode s1); simpl; [|done].
    destruct (encode s2); simpl; [|done].
    by rewrite app_assoc.
Qed.

Lemma encode_Raise s e : encode s = Raise e -> e = UnicodeEncodeError.
Proof.
  induction s as [|c s IH]; simpl; [done|].
  destruct (utf8_encode_cp c) eqn:Ec; simpl.
  - destruct (encode s); simpl; [done|]. intros [= <-]. by apply IH.
  - intros [= <-]. by eapply utf8_encode_cp_Raise.
Qed.

(** [encode] succeeds exactly on the strings of Unicode scalar values. *)
Lemma encode_is_Ok s :
  is_Ok (encode s) = true <->
  Forall (fun c => is_codepoint c /\ is_surrogate c = false) s.
Proof.
  induction s as [|c s IH]; simpl.
  - split; [constructor|done].
  - rewrite Forall_cons, <- IH. pose proof (utf8_encode_cp_is_Ok c) as Hc.
    unfold is_codepoint.
    destruct (utf8_encode_cp c); simpl in *; [|split; [done|lia]].
    destruct (encode s); simpl; split; try done; try lia.
Qed.

Lemma encode_ascii s : str_ascii s -> encode s = Ok (map byte_of_N s).
Proof.
  induction 1 as [|c s Hc _ IH]; simpl; [done|].
  by rewrite utf8_encode_cp_ascii, IH.
Qed.

Lemma utf8_decode_encode s bs : encode s = Ok bs -> utf8_decode bs = Some s.
Proof.
  revert bs. induction s as [|c s IH]; intros bs.
  - by intros [= <-].
  - intros (b1 & b2 & Hc & Hs & ->)%encode_cons_Ok.
    by rewrite (utf8_decode_encode_cp _ _ _ Hc), (IH _ Hs).
Qed.

Lemma encode_inj s1 s2 bs : encode s1 = Ok bs -> encode s2 = Ok bs -> s1 = s2.
Proof.
  intros H1%utf8_decode_encode H2%utf8_decode_encode. congruence.
Qed.

(** ** Case: lemmas *)

Lemma lower_cp_idemp c : lower_cp (lower_cp c) = lower_cp c.
Proof. unfold lower_cp. repeat case_match; lia. Qed.

Lemma lower_cp_ascii c : is_ascii c -> is_ascii (lower_cp c).
Proof. unfold lower_cp, is_ascii. case_match; lia. Qed.

Lemma lower_cp_fixed c : ~ (0x41 <= c <= 0x5A) -> lower_cp c = c.
Proof. unfold lower_cp. intros. case_match; lia. Qed.

Lemma lower_ascii_idemp s : lower_ascii (lower_ascii s) = lower_ascii s.
Proof.
  unfold lower_ascii. rewrite map_map. apply map_ext, lower_cp_idemp.
Qed.

Lemma lower_ascii_fixed s :
  Forall (fun c => ~ (0x41 <= c <= 0x5A)) s -> lower_ascii s = s.
Proof.
  induction 1; simpl; [done|]. rewrite lower_cp_fixed by done. by f_equal.
Qed.

Lemma lower_ascii_str_ascii s : str_ascii s -> str_ascii (lower_ascii s).
Proof. intros H. apply Forall_map. eapply Forall_impl; eauto using lower_cp_ascii. Qed.

(** ** Hexadecimal: lemmas *)

Lemma byte_nibbles b : byte_to_N b / 16 < 16 /\ byte_to_N b mod 16 < 16.
Proof. pose proof (byte_to_N_range b). dlia. Qed.

Lemma hex_digit_is_hex n : n < 16 -> is_hex_digit (hex_digit n) = true.
Proof. unfold is_hex_digit, hex_digit. intros. case_match; lia. Qed.

Lemma unhex_hex_digit n : n < 16 -> unhex_digit (hex_digit n) = Some n.
Proof.
  unfold unhex_digit, hex_digit. intros.
  repeat case_match; try lia; f_equal; lia.
Qed.

Lemma is_hex_digit_ascii c : is_hex_digit c = true -> is_ascii c.
Proof. unfold is_hex_digit, is_ascii. lia. Qed.

Lemma is_hex_digit_lower c : is_hex_digit c = true -> lower_cp c = c.
Proof. unfold is_hex_digit. intros. apply lower_cp_fixed. lia. Qed.

Lemma hex_app b1 b2 : hex (b1 ++ b2) = hex b1 ++ hex b2.
Proof. unfold hex. by rewrite map_app, concat_app. Qed.

Lemma length_hex bs : length (hex bs) = (2 * length bs)%nat.
Proof. unfold hex. by apply length_concat_map_const. Qed.

Lemma hex_is_hex bs : Forall (fun c => is_hex_digit c = true) (hex bs).
Proof.
  apply Forall_concat_map. intros b. destruct (byte_nibbles b).
  repeat constructor; by apply hex_digit_is_hex.
Qed.

Lemma hex_str_ascii bs : str_ascii (hex bs).
Proof. eapply Forall_impl; [apply hex_is_hex|]. apply is_hex_digit_ascii. Qed.

Lemma unhex_hex bs : unhex (hex bs) = Some bs.
Proof.
  induction bs as [|b bs IH]; [done|].
  destruct (byte_nibbles b). unfold hex in *. cbn [map concat hex_byte app unhex].
  rewrite !unhex_hex_digit by done. cbn. rewrite IH. cbn. f_equal. f_equal.
  apply byte_to_N_inj. pose proof (byte_to_N_range b).
  rewrite byte_to_of_N_small; dlia.
Qed.

Lemma hex_inj b1 b2 : hex b1 = hex b2 -> b1 = b2.
Proof.
  intros H. apply (f_equal unhex) in H. rewrite !unhex_hex in H. congruence.
Qed.

(** ** Substrings: lemmas *)

Lemma in_list_true x l : in_list x l = true <-> x ∈ l.
Proof. apply bool_decide_eq_true. Qed.

Lemma in_list_false x l : in_list x l = false <-> x ∉ l.
Proof. apply bool_decide_eq_false. Qed.

Lemma starts_with_prefix p s : starts_with p s = true <-> p `prefix_of` s.
Proof.
  revert s. induction p as [|a p IH]; intros [|b s]; simpl.
  - split; [intros; apply prefix_nil|done].
  - split; [intros; apply prefix_nil|done].
  - split; [done|]. intros H%prefix_nil_inv. done.
  - rewrite andb_true_iff, bool_decide_eq_true, IH. split.
    + intros [-> ?]. by apply prefix_cons.
    + intros H. split; [by apply prefix_cons_inv_1 in H|by apply prefix_cons_inv_2 in H].
Qed.

Lemma starts_with_app p t : starts_with p (p ++ t) = true.
Proof. apply starts_with_prefix. by eexists. Qed.

Lemma contains_spec needle hay :
  contains needle hay = true <-> exists l r, hay = l ++ needle ++ r.
Proof.
  induction hay as [|c hay IH]; simpl; rewrite orb_true_iff, starts_with_prefix.
  - split.
    + intros [[r ->]|[=]]. by exists [], r.
    + intros (l & r & H). left. symmetry in H.
      apply app_eq_nil in H as [-> [-> ->]%app_eq_nil]. done.
  - rewrite IH. split.
    + intros [[r ->]|(l & r & ->)]; [by exists [], r|by exists (c :: l), r].
    + intros ([|c' l] & r & H); simpl in H.
      * left. by exists r.
      * injection H as <- ->. right. eauto.
Qed.
