(* ===== verification/Runtime.v ===== *)
(** * The Python runtime the program calls

    src/game.py calls into CPython for hashing and for case conversion.  The
    two interfaces below state what the program relies on; the components are
    proved against them.  [Sha256.v] implements [Hashlib] with the FIPS 180-4
    algorithm, and [ascii_unicode] implements [Unicode] for the characters the
    program's own strings are made of. *)

From Stdlib Require Import ZArith NArith List.
From stdpp Require Import prelude.
From S2P Require Import Prelude PyStr.

(** [hashlib.sha256(data).digest()]: a function from bytes to 32 bytes. *)
Class Hashlib : Type := {
  sha256_digest : bytes -> bytes;
  sha256_digest_length : forall m, length (sha256_digest m) = 32%nat;
}.

(** Two distinct messages with one digest. *)
Definition collision `{Hashlib} (m1 m2 : bytes) : Prop :=
  m1 <> m2 /\ sha256_digest m1 = sha256_digest m2.

(** [hashlib.sha256(data).hexdigest()]. *)
Definition hexdigest `{Hashlib} (data : bytes) : str := hex (sha256_digest data).

(** [str.lower()].  Unicode case mapping is a table of the runtime; what the
    program needs of it is its behaviour on ASCII text. *)
Class Unicode : Type := {
  str_lower : str -> str;
  str_lower_ascii : forall s, str_ascii s -> str_lower s = lower_ascii s;
}.

(** The case mapping that changes ASCII letters only. *)
#[export] Instance ascii_unicode : Unicode := {|
  str_lower := lower_ascii;
  str_lower_ascii := fun _ _ => eq_refl;
|}.

(** A hash that is none: every message has the digest of 32 zero bytes.
    The binding theorems are reductions to a collision of the hash; with this
    implementation collisions exist, so it shows that what they assume can
    hold.  It is no instance: nothing resolves to it unless it is named. *)
Definition null_hashlib : Hashlib := {|
  sha256_digest := fun _ => replicate 32 Byte.x00;
  sha256_digest_length := fun _ => eq_refl;
|}.

Section runtime_lemmas.
Context `{Hashlib, Unicode}.

Lemma length_hexdigest data : length (hexdigest data) = 64%nat.
Proof. unfold hexdigest. by rewrite length_hex, sha256_digest_length. Qed.

Lemma hexdigest_is_hex data :
  Forall (fun c => is_hex_digit c = true) (hexdigest data).
Proof. apply hex_is_hex. Qed.

(** Equal hex digests of different messages are a collision. *)
Lemma hexdigest_eq_inv m1 m2 :
  hexdigest m1 = hexdigest m2 -> m1 = m2 \/ collision m1 m2.
Proof.
  intros Hd%hex_inj. destruct (decide (m1 = m2)); [by left|by right].
Qed.

Lemma str_lower_idemp_ascii s :
  str_ascii s -> str_lower (str_lower s) = str_lower s.
Proof.
  intros Hs. rewrite (str_lower_ascii s) by done.
  rewrite str_lower_ascii by by apply lower_ascii_str_ascii.
  apply lower_ascii_idemp.
Qed.

Lemma str_lower_fixed s :
  str_ascii s -> Forall (fun c => ~ (0x41 <= c <= 0x5A)%N) s -> str_lower s = s.
Proof. intros. rewrite str_lower_ascii by done. by apply lower_ascii_fixed. Qed.

Lemma str_lower_nil : str_lower [] = [].
Proof. by rewrite str_lower_ascii by constructor. Qed.

End runtime_lemmas.
