(* ===== verification/Sha256.v ===== *)
(** * SHA-256 (FIPS 180-4)

    The hash function behind [hashlib.sha256], written out so that
    commitments can be computed: 32-bit words as [Z] with the wrap-around
    explicit, the padding of section 5.1.1, the message schedule and the
    compression function of section 6.2.2.  The file ends with the instance of
    [Runtime.Hashlib] and the standard test vectors. *)

From Stdlib Require Import ZArith NArith Lia ZifyBool ZifyN ZifyNat List.
From Stdlib Require Import Strings.Byte Strings.String.
From stdpp Require Import prelude.
From S2P Require Import Prelude PyStr Runtime.

#[local] Open Scope Z_scope.

(** ** Words *)

Definition wrap32 (x : Z) : Z := x mod 2 ^ 32.
Definition add32 (x y : Z) : Z := wrap32 (x + y).
Definition not32 (x : Z) : Z := wrap32 (Z.lnot x).

(** Rotate and shift right, on 32 bits (section 3.2). *)
Definition rotr (n x : Z) : Z :=
  Z.lor (Z.shiftr x n) (wrap32 (Z.shiftl x (32 - n))).
Definition shr (n x : Z) : Z := Z.shiftr x n.

(** The six logical functions (section 4.1.2). *)
Definition Ch (x y z : Z) : Z := Z.lxor (Z.land x y) (Z.land (not32 x) z).
Definition Maj (x y z : Z) : Z :=
  Z.lxor (Z.lxor (Z.land x y) (Z.land x z)) (Z.land y z).
Definition Sigma0 (x : Z) : Z := Z.lxor (Z.lxor (rotr 2 x) (rotr 13 x)) (rotr 22 x).
Definition Sigma1 (x : Z) : Z := Z.lxor (Z.lxor (rotr 6 x) (rotr 11 x)) (rotr 25 x).
Definition sigma0 (x : Z) : Z := Z.lxor (Z.lxor (rotr 7 x) (rotr 18 x)) (shr 3 x).
Definition sigma1 (x : Z) : Z := Z.lxor (Z.lxor (rotr 17 x) (rotr 19 x)) (shr 10 x).

(** The round constants (section 4.2.2). *)
Definition K256 : list Z :=
  [0x428A2F98; 0x71374491; 0xB5C0FBCF; 0xE9B5DBA5] ++
  [0x3956C25B; 0x59F111F1; 0x923F82A4; 0xAB1C5ED5] ++
  [0xD807AA98; 0x12835B01; 0x243185BE; 0x550C7DC3] ++
  [0x72BE5D74; 0x80DEB1FE; 0x9BDC06A7; 0xC19BF174] ++
  [0xE49B69C1; 0xEFBE4786; 0x0FC19DC6; 0x240CA1CC] ++
  [0x2DE92C6F; 0x4A7484AA; 0x5CB0A9DC; 0x76F988DA] ++
  [0x983E5152; 0xA831C66D; 0xB00327C8; 0xBF597FC7] ++
  [0xC6E00BF3; 0xD5A79147; 0x06CA6351; 0x14292967] ++
  [0x27B70A85; 0x2E1B2138; 0x4D2C6DFC; 0x53380D13] ++
  [0x650A7354; 0x766A0ABB; 0x81C2C92E; 0x92722C85] ++
  [0xA2BFE8A1; 0xA81A664B; 0xC24B8B70; 0xC76C51A3] ++
  [0xD192E819; 0xD6990624; 0xF40E3585; 0x106AA070] ++
  [0x19A4C116; 0x1E376C08; 0x2748774C; 0x34B0BCB5] ++
  [0x391C0CB3; 0x4ED8AA4A; 0x5B9CCA4F; 0x682E6FF3] ++
  [0x748F82EE; 0x78A5636F; 0x84C87814; 0x8CC70208] ++
  [0x90BEFFFA; 0xA4506CEB; 0xBEF9A3F7; 0xC67178F2].

(** ** Hash state *)

(** Eight 32-bit words: the intermediate hash value, and the working
    variables [a] to [h] of a block. *)
Record regs : Type := Regs {
  ra : Z; rb : Z; rc : Z; rd : Z; re : Z; rf : Z; rg : Z; rh : Z;
}.

(** The initial hash value (section 5.3.3). *)
Definition H_init : regs :=
  Regs 0x6A09E667 0xBB67AE85 0x3C6EF372 0xA54FF53A
       0x510E527F 0x9B05688C 0x1F83D9AB 0x5BE0CD19.

Definition regs_list (s : regs) : list Z :=
  [ra s; rb s; rc s; rd s; re s; rf s; rg s; rh s].

Definition regs_add (s t : regs) : regs :=
  Regs (add32 (ra s) (ra t)) (add32 (rb s) (rb t)) (add32 (rc s) (rc t))
       (add32 (rd s) (rd t)) (add32 (re s) (re t)) (add32 (rf s) (rf t))
       (add32 (rg s) (rg t)) (add32 (rh s) (rh t)).

Definition word_ok (x : Z) : Prop := 0 <= x < 2 ^ 32.
Definition regs_ok (s : regs) : Prop := Forall word_ok (regs_list s).

(** ** Padding and parsing (sections 5.1.1 and 5.2.1) *)

(** The [n] low bytes of [x], most significant first. *)
Fixpoint be_bytes (n : nat) (x : Z) : bytes :=
  match n with
  | O => []
  | S n' => byte_of_Z (Z.shiftr x (8 * Z.of_nat n')) :: be_bytes n' x
  end.

(** The number a sequence of bytes denotes, most significant first. *)
Definition be_word (bs : bytes) : Z :=
  fold_left (fun acc b => acc * 256 + byte_to_Z b) bs 0.

(** The number of zero bytes after the [0x80] marker: the least [k] with
    [len + 1 + k + 8] a multiple of 64. *)
Definition pad_zeros (len : nat) : nat := Z.to_nat ((55 - Z.of_nat len) mod 64).

Definition pad (msg : bytes) : bytes :=
  msg ++ [x80] ++ replicate (pad_zeros (length msg)) x00
      ++ be_bytes 8 (8 * Z.of_nat (length msg)).

(** Cut [l] into [n] pieces of [k] elements. *)
Fixpoint chunks {A} (k n : nat) (l : list A) : list (list A) :=
  match n with
  | O => []
  | S n' => take k l :: chunks k n' (drop k l)
  end.

(** The sixteen words of a 64-byte block. *)
Definition block_words (block : bytes) : list Z :=
  map be_word (chunks 4 16 block).

Definition blocks (padded : bytes) : list (list Z) :=
  map block_words (chunks 64 (length padded / 64) padded).

(** ** Compression (section 6.2.2) *)

(** Extend a schedule of [length w] words by [n] words. *)
Fixpoint schedule_ext (n : nat) (w : list Z) : list Z :=
  match n with
  | O => w
  | S n' =>
      let t := length w in
      let wt := add32 (add32 (add32 (sigma1 (nth (t - 2) w 0)) (nth (t - 7) w 0))
                             (sigma0 (nth (t - 15) w 0)))
                      (nth (t - 16) w 0) in
      schedule_ext n' (w ++ [wt])
  end.

Definition schedule (m : list Z) : list Z := schedule_ext 48 m.

(** One round: the new working variables from the old ones, the round
    constant and the schedule word. *)
Definition round (s : regs) (kw : Z * Z) : regs :=
  let t1 := add32 (add32 (add32 (add32 (rh s) (Sigma1 (re s)))
                                 (Ch (re s) (rf s) (rg s))) kw.1) kw.2 in
  let t2 := add32 (Sigma0 (ra s)) (Maj (ra s) (rb s) (rc s)) in
  Regs (add32 t1 t2) (ra s) (rb s) (rc s) (add32 (rd s) t1) (re s) (rf s) (rg s).

Definition compress (hv : regs) (m : list Z) : regs :=
  regs_add hv (fold_left round (zip K256 (schedule m)) hv).

(** ** The hash *)

Definition digest_bytes (hv : regs) : bytes :=
  concat (map (be_bytes 4) (regs_list hv)).

Definition sha256 (msg : bytes) : bytes :=
  digest_bytes (fold_left compress (blocks (pad msg)) H_init).

(** ** Words stay on 32 bits *)

Lemma wrap32_ok x : word_ok (wrap32 x).
Proof. apply Z.mod_pos_bound. done. Qed.

Lemma add32_ok x y : word_ok (add32 x y).
Proof. apply wrap32_ok. Qed.

Lemma wrap32_small x : word_ok x -> wrap32 x = x.
Proof. apply Z.mod_small. Qed.

Lemma regs_add_ok s t : regs_ok (regs_add s t).
Proof. repeat constructor; apply add32_ok. Qed.

Lemma compress_ok hv m : regs_ok (compress hv m).
Proof. apply regs_add_ok. Qed.

Lemma H_init_ok : regs_ok H_init.
Proof. repeat constructor; done. Qed.

(** The intermediate hash value is made of 32-bit words after every block. *)
Lemma fold_compress_ok ms hv :
  regs_ok hv -> regs_ok (fold_left compress ms hv).
Proof.
  revert hv. induction ms as [|m ms IH]; intros hv Hhv; simpl; [done|].
  apply IH, compress_ok.
Qed.

#[export] Hint Resolve wrap32_ok add32_ok regs_add_ok compress_ok H_init_ok
  fold_compress_ok : rps.

(** ** Bytes and words *)

Lemma length_be_bytes n x : length (be_bytes n x) = n.
Proof. induction n; simpl; auto. Qed.

Lemma be_word_app bs1 bs2 :
  be_word (bs1 ++ bs2) = be_word bs1 * 256 ^ Z.of_nat (length bs2) + be_word bs2.
Proof.
  unfold be_word. rewrite fold_left_app. generalize (fold_left (fun acc b => acc * 256 + byte_to_Z b) bs1 0).
  induction bs2 as [|b bs2 IH] using rev_ind; intros acc.
  - simpl. lia.
  - rewrite !fold_left_app, length_app, Nat2Z.inj_add, Z.pow_add_r by lia.
    simpl. rewrite IH. change (256 ^ 1) with 256. lia.
Qed.

Lemma be_word_range bs : 0 <= be_word bs < 256 ^ Z.of_nat (length bs).
Proof.
  induction bs as [|b bs IH] using rev_ind; [done|].
  rewrite be_word_app, length_app, Nat2Z.inj_add, Z.pow_add_r by lia.
  pose proof (byte_to_Z_range b).
  change (be_word [b]) with (byte_to_Z b).
  change (256 ^ Z.of_nat (length [b])) with 256. nia.
Qed.

(** Four bytes denote a 32-bit word. *)
Lemma be_word_ok bs : length bs = 4%nat -> word_ok (be_word bs).
Proof. intros H. pose proof (be_word_range bs) as Hr. by rewrite H in Hr. Qed.

(** ** Padding *)

Lemma pad_zeros_lt len : (pad_zeros len < 64)%nat.
Proof. unfold pad_zeros. dlia. Qed.

Lemma length_pad msg :
  length (pad msg) = (length msg + 1 + pad_zeros (length msg) + 8)%nat.
Proof.
  unfold pad. rewrite !length_app, length_replicate, length_be_bytes. simpl. lia.
Qed.

(** The padded message is a whole number of 64-byte blocks, at least one. *)
Lemma length_pad_blocks msg :
  (length (pad msg) mod 64 = 0 /\ 64 <= length (pad msg))%nat.
Proof. rewrite length_pad. unfold pad_zeros. dlia. Qed.

(** The padding adds the least number of bytes that reaches a block
    boundary: fewer than 64 on top of the nine it must add. *)
Lemma length_pad_least msg :
  (length msg + 9 <= length (pad msg) < length msg + 9 + 64)%nat.
Proof. rewrite length_pad. pose proof (pad_zeros_lt (length msg)). lia. Qed.

Lemma pad_prefix msg : msg `prefix_of` pad msg.
Proof. unfold pad. by eexists. Qed.

(** ** Parsing *)

Lemma length_chunks {A} k n (l : list A) : length (chunks k n l) = n.
Proof. revert l. induction n; intros; simpl; auto. Qed.

(** Cutting a list of [k * n] elements into [n] pieces loses nothing. *)
Lemma concat_chunks {A} k n (l : list A) :
  length l = (k * n)%nat -> concat (chunks k n l) = l.
Proof.
  revert l. induction n as [|n IH]; intros l Hl; simpl.
  - destruct l; [done|simpl in Hl; lia].
  - rewrite IH, take_drop; [done|]. rewrite length_drop. lia.
Qed.

Lemma Forall_length_chunks {A} k n (l : list A) :
  length l = (k * n)%nat -> Forall (fun c => length c = k) (chunks k n l).
Proof.
  revert l. induction n as [|n IH]; intros l Hl; simpl; constructor.
  - rewrite length_take. lia.
  - apply IH. rewrite length_drop. lia.
Qed.

(** Every byte of the padded message is in exactly one block. *)
Lemma concat_blocks_pad msg :
  concat (chunks 64 (length (pad msg) / 64) (pad msg)) = pad msg.
Proof.
  apply concat_chunks. destruct (length_pad_blocks msg) as [Hm _].
  pose proof (Nat.div_mod_eq (length (pad msg)) 64). lia.
Qed.

Lemma length_blocks msg : length (blocks (pad msg)) = (length (pad msg) / 64)%nat.
Proof. unfold blocks. by rewrite length_map, length_chunks. Qed.

Lemma length_block_words block : length (block_words block) = 16%nat.
Proof. unfold block_words. by rewrite length_map, length_chunks. Qed.

(** ** The digest *)

Lemma length_digest_bytes hv : length (digest_bytes hv) = 32%nat.
Proof.
  unfold digest_bytes.
  rewrite (length_concat_map_const _ 4) by apply length_be_bytes. done.
Qed.

Lemma length_sha256 msg : length (sha256 msg) = 32%nat.
Proof. apply length_digest_bytes. Qed.

Lemma length_schedule_ext n w : length (schedule_ext n w) = (length w + n)%nat.
Proof.
  revert w. induction n as [|n IH]; intros w; simpl; [lia|].
  rewrite IH, length_app. simpl. lia.
Qed.

(** The schedule of a block has one word per round. *)
Lemma length_schedule m : length m = 16%nat -> length (schedule m) = length K256.
Proof. intros Hm. unfold schedule. rewrite length_schedule_ext, Hm. done. Qed.

(** ** The implementation of the runtime's interface *)

#[export] Instance fips_hashlib : Hashlib := {|
  sha256_digest := sha256;
  sha256_digest_length := length_sha256;
|}.

(** ** Test vectors (FIPS 180-4 examples) *)

Example sha256_empty :
  hex (sha256 []) =
  lit "e3b0c44298fc1c149afbf4c8996fb92427ae41e4649b934ca495991b7852b855".
Proof. vm_compute. reflexivity. Qed.

Example sha256_abc :
  hex (sha256 (list_byte_of_string "abc"%string)) =
  lit "ba7816bf8f01cfea414140de5dae2223b00361a396177a9cb410ff61f20015ad".
Proof. vm_compute. reflexivity. Qed.

Example sha256_two_blocks :
  hex (sha256 (list_byte_of_string
    "abcdbcdecdefdefgefghfghighijhijkijkljklmklmnlmnomnopnopq"%string)) =
  lit "248d6a61d20638b8e5c026930c3e6039a33ce45964ff2167f6ecedd419db06c1".
Proof. vm_compute. reflexivity. Qed.
