(* ===== verification/Commitment.v ===== *)
(** * The commitment engine

    [generate_commitment] of src/game.py and the check that play_game makes
    of a revealed move and secret against a stored commitment.  The theorems
    are proved for any implementation of [Runtime.Hashlib]; the closing
    examples evaluate them with SHA-256. *)

From Stdlib Require Import ZArith NArith Lia List Strings.String.
From stdpp Require Import prelude.
From S2P Require Import Prelude PyStr Runtime Sha256.

(** ** Operations *)

Section commitment.
Context `{Hashlib}.

(** [generate_commitment(move, secret)]: the hex digest of the UTF-8 bytes of
    the two strings joined.  [encode] raises on a string with a surrogate. *)
Definition generate_commitment (move secret : str) : result str :=
  let combined_string := move ++ secret in
  data ← encode combined_string;
  Ok (hexdigest data).

(** [generate_commitment(revealed_move, revealed_secret) == commitment]. *)
Definition verify_commitment (revealed_move revealed_secret commitment : str)
  : result bool :=
  c ← generate_commitment revealed_move revealed_secret;
  Ok (bool_decide (c = commitment)).

(** ** Functional behaviour *)

Lemma generate_commitment_Ok move secret c :
  generate_commitment move secret = Ok c <->
  exists data, encode (move ++ secret) = Ok data /\ c = hexdigest data.
Proof.
  unfold generate_commitment. rewrite bind_Ok_inv.
  split; intros (data & ? & ?); exists data; split; congruence.
Qed.

Lemma generate_commitment_ascii move secret :
  str_ascii move -> str_ascii secret ->
  generate_commitment move secret =
  Ok (hexdigest (map byte_of_N (move ++ secret))).
Proof.
  intros Hm Hs. unfold generate_commitment.
  rewrite encode_ascii; [done|]. by apply Forall_app.
Qed.

Lemma generate_commitment_Raise move secret e :
  generate_commitment move secret = Raise e -> e = UnicodeEncodeError.
Proof.
  unfold generate_commitment.
  destruct (encode (move ++ secret)) eqn:E; simpl; [done|].
  intros [= <-]. by eapply encode_Raise.
Qed.

(** A commitment that is returned is 64 lower-case hexadecimal digits. *)
Lemma generate_commitment_hex move secret c :
  generate_commitment move secret = Ok c ->
  length c = 64%nat /\ Forall (fun ch => is_hex_digit ch = true) c.
Proof.
  intros (data & _ & ->)%generate_commitment_Ok.
  split; [apply length_hexdigest|apply hexdigest_is_hex].
Qed.

(** Two pairs with one commitment: the same concatenation, or a collision of
    the hash on the two encodings. *)
Lemma generate_commitment_inj m1 s1 m2 s2 c :
  generate_commitment m1 s1 = Ok c ->
  generate_commitment m2 s2 = Ok c ->
  m1 ++ s1 = m2 ++ s2 \/
  exists d1 d2, encode (m1 ++ s1) = Ok d1 /\ encode (m2 ++ s2) = Ok d2 /\
                collision d1 d2.
Proof.
  intros (d1 & E1 & ->)%generate_commitment_Ok (d2 & E2 & Hd)%generate_commitment_Ok.
  destruct (hexdigest_eq_inv _ _ Hd) as [->|Hc].
  - left. by eapply encode_inj.
  - right. by exists d1, d2.
Qed.

(** C25. Whatever the move and the secret, [generate_commitment] either
    returns a string of exactly 64 lower-case hexadecimal digits or raises
    [UnicodeEncodeError]; it has no other result. *)
Theorem generate_commitment_shape move secret :
  match generate_commitment move secret with
  | Ok c => length c = 64%nat /\ Forall (fun ch => is_hex_digit ch = true) c
  | Raise e => e = UnicodeEncodeError
  end.
Proof.
  destruct (generate_commitment move secret) as [c|e] eqn:E.
  - by eapply generate_commitment_hex.
  - by eapply generate_commitment_Raise.
Qed.

(** C26. [generate_commitment] returns (does not raise) exactly when every
    character of the move and of the secret is a Unicode scalar value: a code
    point below 0x110000 that is no surrogate. *)
Theorem generate_commitment_is_Ok move secret :
  is_Ok (generate_commitment move secret) = true <->
  Forall (fun c => is_codepoint c /\ is_surrogate c = false) (move ++ secret).
Proof.
  rewrite <- encode_is_Ok. unfold generate_commitment.
  by destruct (encode (move ++ secret)).
Qed.

(** C24. The commitment depends on the move and the secret only through their
    concatenation: two pairs with the same concatenation, such as
    ("rock", "abc") and ("rocka", "bc"), have the same commitment. *)
Theorem generate_commitment_concat m1 s1 m2 s2 :
  m1 ++ s1 = m2 ++ s2 ->
  generate_commitment m1 s1 = generate_commitment m2 s2.
Proof. unfold generate_commitment. by intros ->. Qed.

(** C9. Binding, as a reduction to the hash: two (move, secret) pairs with
    different concatenations that produce the same commitment [c] give a
    collision of the hash, namely the UTF-8 encodings of the two
    concatenations (two different messages with the same digest). *)
Theorem generate_commitment_binding m1 s1 m2 s2 c :
  generate_commitment m1 s1 = Ok c ->
  generate_commitment m2 s2 = Ok c ->
  m1 ++ s1 <> m2 ++ s2 ->
  exists d1 d2, encode (m1 ++ s1) = Ok d1 /\ encode (m2 ++ s2) = Ok d2 /\
                collision d1 d2.
Proof.
  intros H1 H2 Hne. by destruct (generate_commitment_inj _ _ _ _ _ H1 H2) as [?|?].
Qed.

(** ** Verification *)

(** The check answers true exactly when the recomputation returns the stored
    commitment. *)
Lemma verify_commitment_true m s c :
  verify_commitment m s c = Ok true <-> generate_commitment m s = Ok c.
Proof.
  unfold verify_commitment. destruct (generate_commitment m s) as [c'|]; simpl.
  - rewrite (inj_iff Ok), bool_decide_eq_true. split; congruence.
  - done.
Qed.

Lemma verify_commitment_false m s c :
  verify_commitment m s c = Ok false <->
  exists c', generate_commitment m s = Ok c' /\ c' <> c.
Proof.
  unfold verify_commitment. destruct (generate_commitment m s) as [c'|]; simpl.
  - rewrite (inj_iff Ok), bool_decide_eq_false. split; [eauto|].
    by intros (? & [= ->] & ?).
  - split; [done|]. by intros (? & ? & _).
Qed.

Lemma verify_commitment_Raise m s c e :
  verify_commitment m s c = Raise e <-> generate_commitment m s = Raise e.
Proof.
  unfold verify_commitment. destruct (generate_commitment m s) as [c'|]; simpl;
    split; by intros [= ->].
Qed.

(** C12. Completeness of the check: the move and the secret a commitment was
    generated from pass the check against it. *)
Theorem verify_commitment_complete m s c :
  generate_commitment m s = Ok c -> verify_commitment m s c = Ok true.
Proof. apply verify_commitment_true. Qed.

(** C11. Soundness of the check, as a reduction to the hash: a reveal that
    passes the check against the commitment generated from (m', s') has the
    concatenation of (m', s'), or the encodings of the two concatenations
    are a collision of the hash. *)
Theorem verify_commitment_sound m s m' s' c :
  generate_commitment m' s' = Ok c ->
  verify_commitment m s c = Ok true ->
  m ++ s = m' ++ s' \/
  exists d d', encode (m ++ s) = Ok d /\ encode (m' ++ s') = Ok d' /\
               collision d d'.
Proof.
  intros Hc Hv%verify_commitment_true. by eapply generate_commitment_inj.
Qed.

(** C13. The check does not tell two pairs with the same concatenation apart:
    a commitment generated from (m', s') is opened by every (m, s) with
    [m ++ s = m' ++ s'], the pair being different or not. *)
Theorem verify_commitment_reopen m s m' s' c :
  m ++ s = m' ++ s' ->
  generate_commitment m' s' = Ok c ->
  verify_commitment m s c = Ok true.
Proof.
  intros E Hc. apply verify_commitment_true.
  unfold generate_commitment in *. by rewrite E.
Qed.

(** C27. A stored commitment that is malformed (not 64 characters long, or
    with a character that is no lower-case hexadecimal digit) fails the check
    against every reveal for which the recomputation returns: the answer is
    false, not an exception. *)
Theorem verify_commitment_malformed m s c c' :
  generate_commitment m s = Ok c' ->
  length c <> 64%nat \/ Exists (fun ch => is_hex_digit ch = false) c ->
  verify_commitment m s c = Ok false.
Proof.
  intros Hc' Hbad. apply verify_commitment_false. exists c'. split; [done|].
  intros ->. destruct (generate_commitment_hex _ _ _ Hc') as [Hlen Hhex].
  destruct Hbad as [?|Hex]; [done|].
  apply Exists_exists in Hex as (ch & Hin & Hch).
  rewrite Forall_forall in Hhex. specialize (Hhex ch Hin). congruence.
Qed.

End commitment.

(** ** Evaluation with SHA-256 *)


Lemma generate_commitment_concat_witness :
  generate_commitment (lit "rock") (lit "abc") =
  generate_commitment (lit "rocka") (lit "bc").
Proof. apply generate_commitment_concat. reflexivity. Defined.

Lemma generate_commitment_binding_witness :
  exists d1 d2,
    encode (lit "rock" ++ lit "abc") = Ok d1 /\
    encode (lit "paper" ++ lit "abc") = Ok d2 /\ @collision null_hashlib d1 d2.
Proof.
  by apply (@generate_commitment_binding null_hashlib _ _ _ _
              (replicate 64 0x30%N)).
Defined.

Lemma verify_commitment_complete_witness :
  verify_commitment (lit "rock") (lit "abc123")
    (lit "c722d108e8e3abf1f06ef3e79825bb248ff45487ec23c7e37d9657b46e5e1b8f") = Ok true.
Proof. apply verify_commitment_complete. vm_compute. reflexivity. Defined.

Lemma verify_commitment_sound_witness :
  lit "rocka" ++ lit "bc123" = lit "rock" ++ lit "abc123" \/
  exists d d',
    encode (lit "rocka" ++ lit "bc123") = Ok d /\
    encode (lit "rock" ++ lit "abc123") = Ok d' /\ collision d d'.
Proof.
  apply (verify_commitment_sound _ _ _ _
    (lit "c722d108e8e3abf1f06ef3e79825bb248ff45487ec23c7e37d9657b46e5e1b8f"));
    vm_compute; reflexivity.
Defined.

Lemma verify_commitment_reopen_witness :
  verify_commitment (lit "rocka") (lit "bc123")
    (lit "c722d108e8e3abf1f06ef3e79825bb248ff45487ec23c7e37d9657b46e5e1b8f") = Ok true.
Proof.
  apply (verify_commitment_reopen _ _ (lit "rock") (lit "abc123"));
    [reflexivity|vm_compute; reflexivity].
Defined.

Lemma verify_commitment_malformed_witness :
  verify_commitment (lit "rock") (lit "abc123") (lit "c722d108") = Ok false.
Proof.
  apply (verify_commitment_malformed _ _ _
    (lit "c722d108e8e3abf1f06ef3e79825bb248ff45487ec23c7e37d9657b46e5e1b8f")).
  - vm_compute. reflexivity.
  - left. vm_compute. lia.
Defined.
