(* ===== verification/Winner.v ===== *)
(** * The outcome resolver

    [determine_winner] of src/game.py, on strings as the program has them,
    with the dictionary [winning_moves] as a finite map.  The second half is
    the specification's resolver on an enumerated move type, and the proof
    that the program implements it on the three move names. *)

From Stdlib Require Import ZArith NArith Lia List Strings.String.
From stdpp Require Import prelude gmap.
From S2P Require Import Prelude PyStr.

(** ** The program's definitions *)

(** The list the program tests a typed move against. *)
Definition valid_moves : list str := [lit "rock"; lit "paper"; lit "scissors"].

(** The dictionary of [determine_winner]: each move maps to the move it
    beats. *)
Definition winning_moves : gmap str str :=
  {[ lit "rock" := lit "scissors";
     lit "scissors" := lit "paper";
     lit "paper" := lit "rock" ]}.

Definition tie_msg : str := lit "It's a Tie!".
Definition a_wins_msg : str := lit "Player A wins!".
Definition b_wins_msg : str := lit "Player B wins!".

(** [determine_winner(move_A, move_B)].  [winning_moves.get(move_A)] is [None]
    for a string that is no key, and [None] equals no string. *)
Definition determine_winner (move_A move_B : str) : str :=
  if decide (move_A = move_B) then tie_msg
  else if decide (winning_moves !! move_A = Some move_B) then a_wins_msg
  else b_wins_msg.

(** ** The specification's resolver *)

Inductive move : Type := Rock | Paper | Scissors.
Inductive outcome : Type := Tie | AWins | BWins.

#[export] Instance move_eq_dec : EqDecision move.
Proof. solve_decision. Defined.
#[export] Instance outcome_eq_dec : EqDecision outcome.
Proof. solve_decision. Defined.

(** The move that [m] beats. *)
Definition beats (m : move) : move :=
  match m with
  | Rock => Scissors
  | Scissors => Paper
  | Paper => Rock
  end.

Definition resolve (a b : move) : outcome :=
  if decide (a = b) then Tie
  else if decide (beats a = b) then AWins
  else BWins.

(** The outcome seen from the other side of the table. *)
Definition mirror (o : outcome) : outcome :=
  match o with
  | Tie => Tie
  | AWins => BWins
  | BWins => AWins
  end.

(** The canonical name of a move, and the text of an outcome. *)
Definition move_str (m : move) : str :=
  match m with
  | Rock => lit "rock"
  | Paper => lit "paper"
  | Scissors => lit "scissors"
  end.

Definition outcome_str (o : outcome) : str :=
  match o with
  | Tie => tie_msg
  | AWins => a_wins_msg
  | BWins => b_wins_msg
  end.

(** The move a canonical name denotes. *)
Definition parse_move (s : str) : option move :=
  if decide (s = lit "rock") then Some Rock
  else if decide (s = lit "paper") then Some Paper
  else if decide (s = lit "scissors") then Some Scissors
  else None.

(** ** The dictionary *)

Lemma winning_moves_lookup m m' :
  winning_moves !! m = Some m' <->
  (m = lit "rock" /\ m' = lit "scissors") \/
  (m = lit "scissors" /\ m' = lit "paper") \/
  (m = lit "paper" /\ m' = lit "rock").
Proof.
  unfold winning_moves.
  rewrite !lookup_insert_Some, lookup_singleton_Some. split.
  - intros [[<- <-]|[_ [[<- <-]|[_ [<- <-]]]]]; auto.
  - intros [[-> ->]|[[-> ->]|[-> ->]]]; [by left|right|right]; (split; [done|]).
    + by left.
    + right. by split.
Qed.

(** The dictionary is the graph of [beats] on the move names. *)
Lemma winning_moves_beats m m' :
  winning_moves !! m = Some m' <->
  exists mv, m = move_str mv /\ m' = move_str (beats mv).
Proof.
  rewrite winning_moves_lookup. split.
  - intros [[-> ->]|[[-> ->]|[-> ->]]];
      [by exists Rock|by exists Scissors|by exists Paper].
  - intros ([] & -> & ->); auto.
Qed.

(** ** Move names *)

Lemma move_str_inj a b : move_str a = move_str b -> a = b.
Proof. by destruct a, b. Qed.

#[export] Instance move_str_Inj : Inj (=) (=) move_str := move_str_inj.

Lemma elem_of_valid_moves s : s ∈ valid_moves <-> exists mv, s = move_str mv.
Proof.
  unfold valid_moves. rewrite !elem_of_cons, elem_of_nil. split.
  - intros [->|[->|[->|[]]]]; [by exists Rock|by exists Paper|by exists Scissors].
  - intros ([] & ->); auto.
Qed.

Lemma parse_move_str mv : parse_move (move_str mv) = Some mv.
Proof. by destruct mv. Qed.

Lemma parse_move_Some s mv : parse_move s = Some mv <-> s = move_str mv.
Proof.
  split; [|intros ->; apply parse_move_str].
  unfold parse_move. repeat case_decide; subst; by intros [= <-].
Qed.

(** No move name is the start of another: the three names begin with
    different letters. *)
Lemma move_str_prefix a b : move_str a `prefix_of` move_str b -> a = b.
Proof. destruct a, b; try done; intros [k Hk]; discriminate Hk. Qed.

Lemma move_str_ascii mv : str_ascii (move_str mv).
Proof. destruct mv; repeat constructor. Qed.

Lemma move_str_valid mv : move_str mv ∈ valid_moves.
Proof. apply elem_of_valid_moves. by exists mv. Qed.

Lemma valid_move_ascii m : m ∈ valid_moves -> str_ascii m.
Proof. intros [mv ->]%elem_of_valid_moves. apply move_str_ascii. Qed.

Lemma not_elem_of_valid_moves_nil : [] ∉ valid_moves.
Proof. by intros [[] [=]]%elem_of_valid_moves. Qed.

Lemma move_str_lower mv : lower_ascii (move_str mv) = move_str mv.
Proof. by destruct mv. Qed.

(** ** The relation of the specification *)

Lemma beats_cycle m : beats (beats (beats m)) = m.
Proof. by destruct m. Qed.

Lemma beats_irrefl m : beats m <> m.
Proof. by destruct m. Qed.

Lemma beats_inj a b : beats a = beats b -> a = b.
Proof. by destruct a, b. Qed.

(** Of two different moves, exactly one beats the other. *)
Lemma beats_total a b : a <> b -> (beats a = b /\ beats b <> a) \/ (beats b = a /\ beats a <> b).
Proof. destruct a, b; intros; try done; (by left) || (by right). Qed.

Lemma resolve_Tie a b : resolve a b = Tie <-> a = b.
Proof. unfold resolve. repeat case_decide; split; done. Qed.

Lemma resolve_AWins a b : resolve a b = AWins <-> beats a = b.
Proof.
  unfold resolve. repeat case_decide; split; try done.
  intros Hb. subst. by apply beats_irrefl in Hb.
Qed.

Lemma resolve_BWins a b : resolve a b = BWins <-> beats b = a.
Proof. destruct a, b; by compute. Qed.

Lemma resolve_mirror a b : resolve b a = mirror (resolve a b).
Proof. by destruct a, b. Qed.

(** ** The program on arbitrary strings *)

Lemma msgs_distinct :
  tie_msg <> a_wins_msg /\ tie_msg <> b_wins_msg /\ a_wins_msg <> b_wins_msg.
Proof. done. Qed.

(** A tie is the answer exactly when the two strings are equal. *)
Lemma determine_winner_tie a b : determine_winner a b = tie_msg <-> a = b.
Proof. unfold determine_winner. repeat case_decide; split; done. Qed.

(** Player A wins exactly when A's string names a move and B's string names
    the move it beats. *)
Lemma determine_winner_a_wins a b :
  determine_winner a b = a_wins_msg <->
  exists mv, a = move_str mv /\ b = move_str (beats mv).
Proof.
  rewrite <- winning_moves_beats. unfold determine_winner.
  repeat case_decide; split; try done.
  intros Hl. subst. apply winning_moves_beats in Hl as (mv & E1 & E2).
  rewrite E1 in E2. apply move_str_inj in E2. by destruct (beats_irrefl mv).
Qed.

Lemma determine_winner_b_wins a b :
  determine_winner a b = b_wins_msg <->
  a <> b /\ winning_moves !! a <> Some b.
Proof. unfold determine_winner. repeat case_decide; split; try done; by intros []. Qed.


(** ** Refinement: the program implements the resolver *)

(** On the names of two moves the program prints the text of the resolver's
    outcome. *)
Lemma determine_winner_move_str a b :
  determine_winner (move_str a) (move_str b) = outcome_str (resolve a b).
Proof.
  destruct (resolve a b) eqn:E; simpl.
  - apply resolve_Tie in E as ->. by apply determine_winner_tie.
  - apply resolve_AWins in E as <-. apply determine_winner_a_wins. eauto.
  - apply resolve_BWins in E as <-. apply determine_winner_b_wins. split.
    + intros ?%move_str_inj. by destruct (beats_irrefl b).
    + intros (mv & <-%move_str_inj & E%move_str_inj)%winning_moves_beats.
      by destruct b.
Qed.

Lemma outcome_str_inj o1 o2 : outcome_str o1 = outcome_str o2 -> o1 = o2.
Proof. by destruct o1, o2. Qed.

#[export] Instance outcome_str_Inj : Inj (=) (=) outcome_str := outcome_str_inj.

(** C14. Refinement: on the names of two moves, [determine_winner] returns the
    text of an outcome exactly when the specification's resolver (equal moves
    tie, otherwise A wins if A's move beats B's, otherwise B wins) assigns
    that outcome to the two moves. *)
Theorem determine_winner_resolve a b o :
  determine_winner (move_str a) (move_str b) = outcome_str o <-> resolve a b = o.
Proof. by rewrite determine_winner_move_str, (inj_iff outcome_str). Qed.

(** C15. Cyclic dominance, and nothing else: [determine_winner] answers
    "Player A wins!" exactly for (rock, scissors), (scissors, paper) and
    (paper, rock). *)
Theorem determine_winner_dominance a b :
  determine_winner a b = a_wins_msg <->
  (a, b) ∈ [(lit "rock", lit "scissors"); (lit "scissors", lit "paper");
            (lit "paper", lit "rock")].
Proof.
  rewrite determine_winner_a_wins, !elem_of_cons, elem_of_nil. split.
  - intros ([] & -> & ->); auto.
  - intros [[= -> ->]|[[= -> ->]|[[= -> ->]|[]]]];
      [by exists Rock|by exists Scissors|by exists Paper].
Qed.

(** C17. Symmetry on move names: A wins the game (a, b) exactly when B wins the
    game (b, a), and (a, b) is a tie exactly when (b, a) is. *)
Theorem determine_winner_mirror a b :
  a ∈ valid_moves -> b ∈ valid_moves ->
  (determine_winner a b = a_wins_msg <-> determine_winner b a = b_wins_msg) /\
  (determine_winner a b = tie_msg <-> determine_winner b a = tie_msg).
Proof.
  intros [ma ->]%elem_of_valid_moves [mb ->]%elem_of_valid_moves.
  rewrite !determine_winner_move_str, (resolve_mirror ma mb).
  by destruct (resolve ma mb).
Qed.

(** ** Strings that are no move names *)

(** Player A wins only when both strings are move names. *)
Lemma determine_winner_a_wins_valid a b :
  determine_winner a b = a_wins_msg -> a ∈ valid_moves /\ b ∈ valid_moves.
Proof.
  intros (mv & -> & ->)%determine_winner_a_wins.
  split; apply elem_of_valid_moves; eauto.
Qed.

(** Different strings of which one is no move name: player B wins. *)
Lemma b_wins_invalid a b :
  a <> b -> a ∉ valid_moves \/ b ∉ valid_moves ->
  determine_winner a b = b_wins_msg.
Proof.
  intros Hne Hbad. apply determine_winner_b_wins. split; [done|].
  intros (mv & -> & ->)%winning_moves_beats.
  destruct Hbad as [Hbad|Hbad]; apply Hbad, move_str_valid.
Qed.

(** C16. When the two strings differ and at least one of them is no move name,
    [determine_winner] answers "Player B wins!", whichever side the bad
    string is on: the function does not reject what is outside its domain. *)
Theorem determine_winner_invalid a b :
  a <> b -> a ∉ valid_moves \/ b ∉ valid_moves ->
  determine_winner a b = b_wins_msg.
Proof. apply b_wins_invalid. Qed.

(** The result names a winner exactly when the two strings differ: this is
    the test ["wins" in result] of the report. *)
Lemma contains_wins a b :
  contains (lit "wins") (determine_winner a b) = bool_decide (a <> b).
Proof.
  unfold determine_winner. case_bool_decide; repeat case_decide; try done.
Qed.

(** ** Witnesses *)

Lemma determine_winner_mirror_witness :
  (determine_winner (lit "rock") (lit "paper") = a_wins_msg <->
   determine_winner (lit "paper") (lit "rock") = b_wins_msg) /\
  (determine_winner (lit "rock") (lit "paper") = tie_msg <->
   determine_winner (lit "paper") (lit "rock") = tie_msg).
Proof. apply determine_winner_mirror; set_solver. Defined.

Lemma determine_winner_invalid_witness :
  determine_winner (lit "paper") (lit "r") = b_wins_msg.
Proof.
  apply determine_winner_invalid; [done|].
  right. unfold valid_moves. by rewrite !elem_of_cons, elem_of_nil; intros [|[|[|]]].
Defined.
