(* ===== verification/Console.v ===== *)
(** * The console and the operating system

    What src/game.py does to the outside world, as explicit state: the lines
    the players will type, the random bytes the system will supply, and the
    events the program produces in order.  [IO] is the state-and-exception
    monad over that world; [print], [getpass], [input] and [urandom] are the
    calls of the program. *)

From Stdlib Require Import ZArith NArith Lia List Strings.String.
From stdpp Require Import prelude.
From S2P Require Import Prelude PyStr.

(** ** The world *)

(** [typed]: the lines still to be typed at the terminal, without their line
    ends.  [entropy]: the system's random byte source, of which [drawn] bytes
    have been consumed. *)
Record world : Type := World {
  typed : list str;
  entropy : nat -> byte;
  drawn : nat;
}.

(** What an observer of the terminal and of the system sees. *)
Inductive event : Type :=
| Print (text : str)
| Getpass (prompt answer : str)
| Input (prompt answer : str)
| Prompt (prompt : str)
| Urandom (data : bytes).

#[export] Instance event_eq_dec : EqDecision event.
Proof. solve_decision. Defined.

(** ** The monad *)

(** A computation takes a world and gives a value or an exception, the world
    after it, and the events it produced, oldest first. *)
Record IO (A : Type) : Type := MkIO {
  run : world -> result A * world * list event;
}.
Arguments MkIO {A} run.
Arguments run {A} _ _.

#[export] Instance IO_ret : MRet IO := fun A a => MkIO (fun w => (Ok a, w, [])).

Definition outcome_of {A} (x : result A * world * list event) : result A := x.1.1.
Definition world_of {A} (x : result A * world * list event) : world := x.1.2.
Definition events_of {A} (x : result A * world * list event) : list event := x.2.

(** Sequencing: the second computation runs in the world the first one
    left, unless the first one raised. *)
#[export] Instance IO_bind : MBind IO := fun A B k m =>
  MkIO (fun w =>
    let x := run m w in
    match outcome_of x with
    | Ok a =>
        let y := run (k a) (world_of x) in
        (outcome_of y, world_of y, events_of x ++ events_of y)
    | Raise e => (Raise e, world_of x, events_of x)
    end).

(** A pure computation that may raise. *)
Definition lift {A} (r : result A) : IO A := MkIO (fun w => (r, w, [])).

(** The texts printed, in order. *)
Definition printed (evs : list event) : list str :=
  omap (fun e => match e with Print t => Some t | _ => None end) evs.

(** ** The calls *)

(** [print(text)]. *)
Definition print (text : str) : IO unit :=
  MkIO (fun w => (Ok (), w, [Print text])).

(** Reading a line: the next typed line, or [EOFError] when none is left. *)
Definition read_line (ev : str -> str -> event) (prompt : str) : IO str :=
  MkIO (fun w =>
    match typed w with
    | [] => (Raise EOFError, w, [Prompt prompt])
    | line :: rest =>
        (Ok line, World rest (entropy w) (drawn w), [ev prompt line])
    end).

(** [getpass.getpass(prompt)]: a line read without echo. *)
Definition getpass (prompt : str) : IO str := read_line Getpass prompt.

(** [input(prompt)]. *)
Definition input (prompt : str) : IO str := read_line Input prompt.

(** [os.urandom(n)]: the next [n] bytes of the system's source. *)
Definition urandom (n : nat) : IO bytes :=
  MkIO (fun w =>
    let data := map (entropy w) (seq (drawn w) n) in
    (Ok data, World (typed w) (entropy w) (drawn w + n), [Urandom data])).

(** ** Laws *)

(** Two computations are equivalent when they do the same in every world.
    [IO] is a record of functions, so this is coarser than equality. *)
#[export] Instance IO_equiv {A} : Equiv (IO A) := fun m1 m2 =>
  forall w, run m1 w = run m2 w.

#[export] Instance IO_equivalence {A} : Equivalence (≡@{IO A}).
Proof.
  split.
  - by intros m w.
  - intros m1 m2 E w. by rewrite E.
  - intros m1 m2 m3 E1 E2 w. by rewrite E1, E2.
Qed.

#[export] Instance run_proper {A} : Proper ((≡) ==> (=) ==> (=)) (@run A).
Proof. intros m1 m2 E w ? <-. apply E. Qed.

Lemma triple_eta {A} (x : result A * world * list event) :
  (outcome_of x, world_of x, events_of x) = x.
Proof. by destruct x as [[? ?] ?]. Qed.

Section io_lemmas.
Context {A B : Type}.
Implicit Types (m : IO A) (k : A -> IO B) (w : world).

Lemma run_ret (a : A) w : run (mret a) w = (Ok a, w, []).
Proof. done. Qed.

Lemma run_lift (r : result A) w : run (lift r) w = (r, w, []).
Proof. done. Qed.

(** The three components of a sequence, whatever its halves do. *)
Lemma run_bind m k w :
  run (m ≫= k) w =
  match outcome_of (run m w) with
  | Ok a =>
      (outcome_of (run (k a) (world_of (run m w))),
       world_of (run (k a) (world_of (run m w))),
       events_of (run m w) ++ events_of (run (k a) (world_of (run m w))))
  | Raise e => (Raise e, world_of (run m w), events_of (run m w))
  end.
Proof. done. Qed.

(** Sequencing as a rule: the first half returns, the second half runs in
    the world it left, and the events are joined. *)
Lemma run_bind_ok m k w a w1 evs1 r w2 evs2 :
  run m w = (Ok a, w1, evs1) -> run (k a) w1 = (r, w2, evs2) ->
  run (m ≫= k) w = (r, w2, evs1 ++ evs2).
Proof.
  intros Hm Hk. rewrite run_bind, Hm.
  unfold outcome_of, world_of, events_of. simpl. by rewrite Hk.
Qed.

(** An exception of the first half ends the sequence. *)
Lemma run_bind_raise m k w e w1 evs1 :
  run m w = (Raise e, w1, evs1) -> run (m ≫= k) w = (Raise e, w1, evs1).
Proof. intros Hm. rewrite run_bind, Hm. done. Qed.

(** A sequence that returns: both halves returned. *)
Lemma run_bind_Ok_inv m k w b w2 evs :
  run (m ≫= k) w = (Ok b, w2, evs) ->
  exists a w1 evs1 evs2,
    run m w = (Ok a, w1, evs1) /\ run (k a) w1 = (Ok b, w2, evs2) /\
    evs = evs1 ++ evs2.
Proof.
  rewrite run_bind. destruct (run m w) as [[[a|e] w1] evs1]; [|done].
  unfold outcome_of, world_of, events_of. cbn [fst snd].
  destruct (run (k a) w1) as [[r w2'] evs2] eqn:Hk. cbn [fst snd].
  intros [= -> -> <-]. by exists a, w1, evs1, evs2.
Qed.

(** A sequence that raises: one of the halves did. *)
Lemma run_bind_Raise_inv m k w e w2 evs :
  run (m ≫= k) w = (Raise e, w2, evs) ->
  run m w = (Raise e, w2, evs) \/
  exists a w1 evs1 evs2,
    run m w = (Ok a, w1, evs1) /\ run (k a) w1 = (Raise e, w2, evs2) /\
    evs = evs1 ++ evs2.
Proof.
  rewrite run_bind. destruct (run m w) as [[[a|e'] w1] evs1];
    unfold outcome_of, world_of, events_of; cbn [fst snd];
    [|intros [= -> -> ->]; by left].
  destruct (run (k a) w1) as [[r w2'] evs2] eqn:Hk. cbn [fst snd].
  intros [= -> -> <-]. right. by exists a, w1, evs1, evs2.
Qed.

(** The outcome of a sequence, from the outcome of its first half. *)
Lemma outcome_bind_ok m k w a w1 evs1 :
  run m w = (Ok a, w1, evs1) ->
  outcome_of (run (m ≫= k) w) = outcome_of (run (k a) w1).
Proof. intros Hm. by rewrite run_bind, Hm. Qed.

Lemma outcome_bind_raise m k w e :
  outcome_of (run m w) = Raise e -> outcome_of (run (m ≫= k) w) = Raise e.
Proof. intros Hm. by rewrite run_bind, Hm. Qed.

(** The events of the first half of a sequence come first. *)
Lemma run_bind_events m k w :
  events_of (run m w) `prefix_of` events_of (run (m ≫= k) w).
Proof.
  rewrite run_bind. destruct (outcome_of (run m w)); [|done].
  by apply prefix_app_r.
Qed.

(** Sequencing respects equivalence. *)
Lemma bind_equiv m1 m2 (k1 k2 : A -> IO B) :
  m1 ≡ m2 -> (forall a, k1 a ≡ k2 a) -> m1 ≫= k1 ≡ m2 ≫= k2.
Proof.
  intros Em Ek w. rewrite !run_bind, (Em w).
  destruct (outcome_of (run m2 w)); [|done]. by rewrite (Ek _ _).
Qed.

(** The monad laws, up to equivalence. *)
Lemma bind_ret_l (a : A) k : mret a ≫= k ≡ k a.
Proof. intros w. rewrite run_bind. cbn. apply triple_eta. Qed.

End io_lemmas.

#[export] Instance bind_proper {A B} :
  Proper (pointwise_relation A (≡) ==> (≡) ==> (≡)) (mbind (M:=IO) (A:=A) (B:=B)).
Proof. intros k1 k2 Ek m1 m2 Em. by apply bind_equiv. Qed.

Lemma bind_ret_r {A} (m : IO A) : m ≫= mret ≡ m.
Proof.
  intros w. rewrite run_bind.
  destruct (run m w) as [[[a|e] w1] evs1]; [|done].
  unfold outcome_of, world_of, events_of. cbn. by rewrite app_nil_r.
Qed.

Lemma bind_ret_unit (m : IO unit) : (m ;; mret ()) ≡ m.
Proof.
  intros w. rewrite run_bind.
  destruct (run m w) as [[[[]|e] w1] evs1]; [|done].
  unfold outcome_of, world_of, events_of. cbn. by rewrite app_nil_r.
Qed.

Lemma bind_assoc {A B C} (m : IO A) (k : A -> IO B) (h : B -> IO C) :
  (m ≫= k) ≫= h ≡ m ≫= (fun a => k a ≫= h).
Proof.
  intros w. rewrite !run_bind.
  destruct (run m w) as [[[a|e] w1] evs1]; [|done].
  unfold outcome_of, world_of, events_of. cbn [fst snd].
  rewrite !run_bind.
  destruct (run (k a) w1) as [[[b|e] w2] evs2]; [|done].
  unfold outcome_of, world_of, events_of. cbn [fst snd]. by rewrite app_assoc.
Qed.

Lemma printed_app evs1 evs2 : printed (evs1 ++ evs2) = printed evs1 ++ printed evs2.
Proof. apply omap_app. Qed.

Lemma elem_of_printed t evs : t ∈ printed evs <-> Print t ∈ evs.
Proof.
  unfold printed. rewrite list_elem_of_omap. split.
  - intros (e & He & Ht). destruct e; try done. by injection Ht as ->.
  - intros He. by exists (Print t).
Qed.

(** ** The calls, run *)

Lemma run_urandom n lines rnd k :
  run (urandom n) (World lines rnd k) =
  (Ok (map rnd (seq k n)), World lines rnd (k + n), [Urandom (map rnd (seq k n))]).
Proof. done. Qed.

Lemma run_print t w : run (print t) w = (Ok (), w, [Print t]).
Proof. done. Qed.

Lemma run_read_line_cons ev prompt line rest rnd n :
  run (read_line ev prompt) (World (line :: rest) rnd n) =
  (Ok line, World rest rnd n, [ev prompt line]).
Proof. done. Qed.

Lemma run_read_line_nil ev prompt rnd n :
  run (read_line ev prompt) (World [] rnd n) =
  (Raise EOFError, World [] rnd n, [Prompt prompt]).
Proof. done. Qed.

(** A read raises exactly when no line is left, and only [EOFError]. *)
Lemma run_read_line_Raise ev prompt w e :
  outcome_of (run (read_line ev prompt) w) = Raise e <-> typed w = [] /\ e = EOFError.
Proof.
  unfold read_line, outcome_of; simpl. destruct (typed w); simpl; split; try done.
  - by intros [= <-].
  - by intros [_ ->].
  - by intros [].
Qed.

Lemma length_urandom n w data w1 evs :
  run (urandom n) w = (Ok data, w1, evs) ->
  length data = n /\ drawn w1 = (drawn w + n)%nat /\ typed w1 = typed w.
Proof.
  unfold urandom; simpl. intros [= <- <- _]. simpl.
  by rewrite length_map, length_seq.
Qed.

(** ** Symbolic execution *)

(** The calls whose result is known without hypotheses. *)
Ltac io_call :=
  first [ apply run_ret | apply run_print | apply run_lift
        | apply run_read_line_cons | apply run_urandom ].

(** Run a sequence of computations whose halves all return, the calls decided
    by [call]: the goal is [run prog w = ?x], and [?x] becomes the result. *)
Ltac io_exec call :=
  repeat (eapply run_bind_ok; [solve [call]|cbn beta iota]);
  solve [call].

(** Prove [run prog w = x] by running [prog] and comparing the result. *)
Ltac io_run call := etrans; [io_exec call|].

(** The outcome of a sequence whose first halves return, the calls decided by
    [call]: the goal [outcome_of (run prog w) = r] becomes the same goal for
    the first half that [call] cannot run. *)
Ltac io_outcome call :=
  repeat (etrans; [eapply outcome_bind_ok; solve [call]|cbn beta iota]);
  try apply outcome_bind_raise.
