(* ===== verification/Game.v ===== *)
(** * The game

    [play_game] of src/game.py: the commit turn of each player, the reveal
    phase, the verification of both reveals and the report, as computations
    in [Console.IO].  The definitions follow the source statement by
    statement; the two commit turns, which the source writes out twice, are
    two instances of [commit_turn]. *)

From Stdlib Require Import ZArith NArith Lia List Strings.String.
From stdpp Require Import prelude.
From S2P Require Import Prelude PyStr Runtime Sha256 Commitment Winner Console.

(** ** Data *)

(** What a commit turn leaves in the program's variables. *)
Record locked_box : Type := LockedBox {
  box_move : str;
  box_secret : str;
  box_commitment : str;
}.

(** The four strings typed in the reveal phase, the moves in lower case. *)
Record reveals : Type := Reveals {
  revealed_move_A : str;
  revealed_secret_A : str;
  revealed_move_B : str;
  revealed_secret_B : str;
}.

(** What the two players type in a game that reaches the report: for each
    commit turn the refused lines and the accepted one, then the four lines
    of the reveal phase. *)
Record script : Type := Script {
  bad_A : list str; good_A : str;
  bad_B : list str; good_B : str;
  line_A : str; typed_secret_A : str;
  line_B : str; typed_secret_B : str;
}.

(** The newline character of an escape in a literal. *)
Definition NL : str := [10%N].

Definition invalid_msg : str := lit "Invalid move! Please try again.".
Definition cheating_msg : str := lit "❌ CHEATING DETECTED!".
Definition honest_msg : str :=
  lit "✅ Both players are honest! Commitments are verified.".
Definition proof_msg : str :=
  NL ++ lit "The winner's revealed move and secret serve as the SUCCINCT PROOF of victory!".
Definition mismatch_A_msg : str :=
  lit "Player A's revealed move/secret does not match their original commitment!".
Definition mismatch_B_msg : str :=
  lit "Player B's revealed move/secret does not match their original commitment!".

Definition welcome_msg : str :=
  lit "--- Welcome to Verifiable Rock, Paper, Scissors! ---".
Definition phases_msg : str :=
  lit "The game will happen in two phases: Commit and Reveal." ++ NL.
Definition banner_A : str := lit "--- Player A's Turn (Look away, Player B!) ---".
Definition banner_B : str := lit "--- Player B's Turn (Look away, Player A!) ---".
Definition prompt_A : str :=
  lit "Player A, enter your move (rock, paper, or scissors): ".
Definition prompt_B : str :=
  lit "Player B, enter your move (rock, paper, or scissors): ".
Definition generated_A : str :=
  NL ++ lit "Player A, your commitment has been generated.".
Definition generated_B : str :=
  NL ++ lit "Player B, your commitment has been generated.".
Definition send_A : str :=
  lit "This is your 'locked box'. Copy it and send it to Player B.".
Definition send_B : str :=
  lit "This is your 'locked box'. Copy it and send it to Player A.".
(** The rule under a commitment: fifty hyphens and a newline. *)
Definition rule_msg : str := replicate 50 0x2D%N ++ NL.
Definition verifying_msg : str := NL ++ lit "--- Verifying Proofs ---".
Definition result_line (result : str) : str := NL ++ lit "Result: " ++ result.

(** ** Operations *)

Section game.
Context `{Hashlib, Unicode}.

(** The loop [while move not in [...]: print(...); move = getpass(...).lower()]
    on the lines still to be typed.  Each turn of the loop consumes a line, so
    the recursion is on the lines; at the end of the input [getpass] raises. *)
Fixpoint reprompt (prompt move : str) (lines : list str)
  : result str * list str * list event :=
  if in_list move valid_moves then (Ok move, lines, [])
  else
    match lines with
    | [] => (Raise EOFError, [], [Print invalid_msg; Prompt prompt])
    | line :: rest =>
        let '(r, rest', evs) := reprompt prompt (str_lower line) rest in
        (r, rest', Print invalid_msg :: Getpass prompt line :: evs)
    end.

Definition while_invalid (prompt move : str) : IO str :=
  MkIO (fun w =>
    let '(r, rest, evs) := reprompt prompt move (typed w) in
    (r, World rest (entropy w) (drawn w), evs)).

(** A move read until it is one of the three names. *)
Definition ask_move (prompt : str) : IO str :=
  line ← getpass prompt;
  while_invalid prompt (str_lower line).

(** [os.urandom(16).hex()]. *)
Definition new_secret : IO str :=
  data ← urandom 16;
  mret (hex data).

(** One player's commit turn. *)
Definition commit_turn (banner prompt generated send : str) : IO locked_box :=
  print banner;;
  move ← ask_move prompt;
  secret ← new_secret;
  commitment ← lift (generate_commitment move secret);
  print generated;;
  print send;;
  print (lit "Your Commitment: " ++ commitment ++ NL);;
  print (rule_msg);;
  mret (LockedBox move secret commitment).

Definition commit_A : IO locked_box :=
  commit_turn banner_A prompt_A generated_A send_A.

Definition commit_B : IO locked_box :=
  commit_turn banner_B prompt_B generated_B send_B.

(** The reveal phase: four lines, the moves put in lower case, nothing
    checked. *)
Definition reveal_phase : IO reveals :=
  print (lit "--- Reveal Phase ---");;
  print (lit "Both players have exchanged commitments. Time to reveal!");;
  line_A ← input (lit "Enter Player A's revealed move: ");
  secret_A ← input (lit "Enter Player A's revealed secret: ");
  line_B ← input (lit "Enter Player B's revealed move: ");
  secret_B ← input (lit "Enter Player B's revealed secret: ");
  mret (Reveals (str_lower line_A) secret_A (str_lower line_B) secret_B).

(** Both reveals against the stored commitments, A's first. *)
Definition verify_phase (commitment_A commitment_B : str) (r : reveals)
  : IO (bool * bool) :=
  print verifying_msg;;
  is_A_valid ← lift (verify_commitment (revealed_move_A r) (revealed_secret_A r)
                                        commitment_A);
  is_B_valid ← lift (verify_commitment (revealed_move_B r) (revealed_secret_B r)
                                        commitment_B);
  mret (is_A_valid, is_B_valid).

(** The report: the winner when both reveals verify, the cheaters
    otherwise. *)
Definition report (is_A_valid is_B_valid : bool) (r : reveals) : IO unit :=
  if is_A_valid && is_B_valid then
    print honest_msg;;
    print (lit "Player A chose: " ++ revealed_move_A r);;
    print (lit "Player B chose: " ++ revealed_move_B r);;
    let result := determine_winner (revealed_move_A r) (revealed_move_B r) in
    print (result_line result);;
    if contains (lit "wins") result then print proof_msg else mret ()
  else
    print cheating_msg;;
    (if negb is_A_valid then print mismatch_A_msg else mret ());;
    (if negb is_B_valid then print mismatch_B_msg else mret ()).

Definition play_game : IO unit :=
  print welcome_msg;;
  print phases_msg;;
  box_A ← commit_A;
  box_B ← commit_B;
  r ← reveal_phase;
  '(is_A_valid, is_B_valid) ← verify_phase (box_commitment box_A) (box_commitment box_B) r;
  report is_A_valid is_B_valid r.

(** The program: [play_game()] on a terminal where [lines] will be typed and
    a system whose random source is [rnd]. *)
Definition main (lines : list str) (rnd : nat -> byte)
  : result unit * world * list event :=
  run play_game (World lines rnd 0).

(** ** Specification helpers *)

(** The events of a question asked until [good] is typed, after the lines
    [bad] were refused. *)
Fixpoint ask_events (prompt : str) (bad : list str) (good : str) : list event :=
  match bad with
  | [] => [Getpass prompt good]
  | line :: bad' => Getpass prompt line :: Print invalid_msg :: ask_events prompt bad' good
  end.

(** A typed line is accepted when its lower case is a move name. *)
Definition accepted (line : str) : Prop := str_lower line ∈ valid_moves.

#[export] Instance accepted_dec line : Decision (accepted line).
Proof. unfold accepted. apply _. Defined.

(** The sixteen bytes [os.urandom] gives when [n] bytes were drawn before. *)
Definition fresh_bytes (rnd : nat -> byte) (n : nat) : bytes := map rnd (seq n 16).

(** The commitment to an ASCII move with the secret [hex data]. *)
Definition sealed (move : str) (data : bytes) : str :=
  hexdigest (map byte_of_N (move ++ hex data)).

(** The events of a commit turn in which the lines [bad] were refused and
    [good] accepted. *)
Definition commit_events (banner prompt generated send : str)
    (bad : list str) (good : str) (data : bytes) (commitment : str) : list event :=
  Print banner :: ask_events prompt bad good ++
  [Urandom data; Print generated; Print send;
   Print (lit "Your Commitment: " ++ commitment ++ NL);
   Print (rule_msg)].

(** The events of the reveal phase when the four lines are typed. *)
Definition reveal_events (line_A secret_A line_B secret_B : str) : list event :=
  [Print (lit "--- Reveal Phase ---");
   Print (lit "Both players have exchanged commitments. Time to reveal!");
   Input (lit "Enter Player A's revealed move: ") line_A;
   Input (lit "Enter Player A's revealed secret: ") secret_A;
   Input (lit "Enter Player B's revealed move: ") line_B;
   Input (lit "Enter Player B's revealed secret: ") secret_B].

(** The lines of the report. *)
Definition verdict_lines (is_A_valid is_B_valid : bool) (r : reveals) : list str :=
  if is_A_valid && is_B_valid then
    let result := determine_winner (revealed_move_A r) (revealed_move_B r) in
    [honest_msg;
     lit "Player A chose: " ++ revealed_move_A r;
     lit "Player B chose: " ++ revealed_move_B r;
     result_line result]
    ++ (if contains (lit "wins") result then [proof_msg] else [])
  else
    [cheating_msg]
    ++ (if negb is_A_valid then [mismatch_A_msg] else [])
    ++ (if negb is_B_valid then [mismatch_B_msg] else []).

Definition script_lines (s : script) (rest : list str) : list str :=
  bad_A s ++ good_A s ::
  bad_B s ++ good_B s ::
  line_A s :: typed_secret_A s :: line_B s :: typed_secret_B s :: rest.

Definition script_ok (s : script) : Prop :=
  Forall (fun line => ~ accepted line) (bad_A s) /\ accepted (good_A s) /\
  Forall (fun line => ~ accepted line) (bad_B s) /\ accepted (good_B s).

#[export] Instance script_ok_dec s : Decision (script_ok s).
Proof. unfold script_ok, accepted. apply _. Defined.

(** The variables of the program after the script was typed. *)
Definition script_box_A (s : script) (rnd : nat -> byte) : locked_box :=
  LockedBox (str_lower (good_A s)) (hex (fresh_bytes rnd 0))
            (sealed (str_lower (good_A s)) (fresh_bytes rnd 0)).
Definition script_box_B (s : script) (rnd : nat -> byte) : locked_box :=
  LockedBox (str_lower (good_B s)) (hex (fresh_bytes rnd 16))
            (sealed (str_lower (good_B s)) (fresh_bytes rnd 16)).
Definition script_reveals (s : script) : reveals :=
  Reveals (str_lower (line_A s)) (typed_secret_A s)
          (str_lower (line_B s)) (typed_secret_B s).

(** The events of the game up to the report. *)
Definition script_events (s : script) (rnd : nat -> byte) : list event :=
  [Print welcome_msg; Print phases_msg] ++
  commit_events banner_A prompt_A generated_A send_A (bad_A s) (good_A s)
    (fresh_bytes rnd 0) (box_commitment (script_box_A s rnd)) ++
  commit_events banner_B prompt_B generated_B send_B (bad_B s) (good_B s)
    (fresh_bytes rnd 16) (box_commitment (script_box_B s rnd)) ++
  reveal_events (line_A s) (typed_secret_A s) (line_B s) (typed_secret_B s) ++
  [Print verifying_msg].

(** The two checks of the verification phase, A's first: an exception of
    the first one hides the second. *)
Definition check_reveals (cA cB : str) (r : reveals) : result (bool * bool) :=
  va ← verify_commitment (revealed_move_A r) (revealed_secret_A r) cA;
  vb ← verify_commitment (revealed_move_B r) (revealed_secret_B r) cB;
  Ok (va, vb).

Definition checks (s : script) (rnd : nat -> byte) : result (bool * bool) :=
  check_reveals (box_commitment (script_box_A s rnd))
                (box_commitment (script_box_B s rnd)) (script_reveals s).

(** Both players reveal what they committed to. *)
Definition honest_A (s : script) (rnd : nat -> byte) : Prop :=
  str_lower (line_A s) = str_lower (good_A s) /\
  typed_secret_A s = hex (fresh_bytes rnd 0).
Definition honest_B (s : script) (rnd : nat -> byte) : Prop :=
  str_lower (line_B s) = str_lower (good_B s) /\
  typed_secret_B s = hex (fresh_bytes rnd 16).

End game.

(** ** A sample game *)

(** Player A types "lizard", then "Rock"; player B types "SCISSORS"; both
    reveal what they committed to.  The random source counts 0, 1, 2, ... *)
Definition demo_rnd (n : nat) : byte := byte_of_N (N.of_nat n).

Definition demo_script : script :=
  Script [lit "lizard"] (lit "Rock") [] (lit "SCISSORS")
         (lit "rock") (lit "000102030405060708090a0b0c0d0e0f")
         (lit "scissors") (lit "101112131415161718191a1b1c1d1e1f").

(** ** The validation loop *)

Section game_lemmas.
Context `{Hashlib, Unicode}.


(** The loop only ever returns a move name. *)
Lemma reprompt_valid prompt move lines m rest evs :
  reprompt prompt move lines = (Ok m, rest, evs) -> m ∈ valid_moves.
Proof.
  revert move evs. induction lines as [|line lines IH]; intros move evs; simpl.
  - destruct (in_list move valid_moves) eqn:E; [|done].
    intros [= <- _ _]. by apply in_list_true.
  - destruct (in_list move valid_moves) eqn:E.
    + intros [= <- _ _]. by apply in_list_true.
    + destruct (reprompt prompt (str_lower line) lines) as [[r rest'] evs'] eqn:Er.
      intros [= -> -> _]. by eapply IH.
Qed.

(** The loop raises only at the end of the input. *)
Lemma reprompt_Raise prompt move lines e rest evs :
  reprompt prompt move lines = (Raise e, rest, evs) -> e = EOFError /\ rest = [].
Proof.
  revert move evs. induction lines as [|line lines IH]; intros move evs; simpl.
  - destruct (in_list move valid_moves); [done|]. by intros [= <- <- _].
  - destruct (in_list move valid_moves); [done|].
    destruct (reprompt prompt (str_lower line) lines) as [[r rest'] evs'] eqn:Er.
    intros [= -> -> _]. by eapply IH.
Qed.

Lemma reprompt_accept prompt move lines :
  move ∈ valid_moves -> reprompt prompt move lines = (Ok move, lines, []).
Proof.
  intros Hm%in_list_true. destruct lines; simpl; by rewrite Hm.
Qed.

(** A refused move and refused lines up to an accepted one: the loop returns
    the accepted move and leaves the lines after it. *)
Lemma reprompt_skip prompt move bad good rest :
  move ∉ valid_moves -> Forall (fun line => ~ accepted line) bad -> accepted good ->
  reprompt prompt move (bad ++ good :: rest) =
  (Ok (str_lower good), rest, Print invalid_msg :: ask_events prompt bad good).
Proof.
  intros Hmove Hbad Hgood. revert move Hmove.
  induction Hbad as [|line bad Hline _ IH]; intros move Hmove%in_list_false; simpl;
    rewrite Hmove.
  - by rewrite reprompt_accept.
  - by rewrite (IH _ Hline).
Qed.

Lemma reprompt_eof prompt move lines :
  move ∉ valid_moves -> Forall (fun line => ~ accepted line) lines ->
  (reprompt prompt move lines).1.1 = Raise EOFError.
Proof.
  intros Hmove Hbad. revert move Hmove.
  induction Hbad as [|line bad Hline _ IH]; intros move Hmove%in_list_false; simpl;
    rewrite Hmove; [done|].
  specialize (IH _ Hline).
  by destruct (reprompt prompt (str_lower line) bad) as [[? ?] ?].
Qed.

(** With an accepted line somewhere in the input, the question returns its
    move and leaves the lines after it. *)
Lemma run_ask_move prompt bad good rest rnd n :
  Forall (fun line => ~ accepted line) bad -> accepted good ->
  run (ask_move prompt) (World (bad ++ good :: rest) rnd n) =
  (Ok (str_lower good), World rest rnd n, ask_events prompt bad good).
Proof.
  intros Hbad Hgood. unfold ask_move, mbind, IO_bind. simpl.
  destruct Hbad as [|line bad Hline Hbad]; simpl.
  - by rewrite reprompt_accept.
  - by rewrite reprompt_skip.
Qed.

(** With no accepted line at all, the question ends in [EOFError]. *)
Lemma run_ask_move_eof prompt lines rnd n :
  Forall (fun line => ~ accepted line) lines ->
  outcome_of (run (ask_move prompt) (World lines rnd n)) = Raise EOFError.
Proof.
  intros Hbad. unfold ask_move, mbind, IO_bind, outcome_of. simpl.
  destruct Hbad as [|line bad Hline Hbad]; simpl; [done|].
  pose proof (reprompt_eof prompt _ _ Hline Hbad) as He.
  by destruct (reprompt prompt (str_lower line) bad) as [[[] ?] ?].
Qed.

(** C20. The question never returns anything but one of the three move
    names, whatever is typed. *)
Theorem ask_move_valid prompt w m w' evs :
  run (ask_move prompt) w = (Ok m, w', evs) -> m ∈ valid_moves.
Proof.
  unfold ask_move. intros (line & w1 & e1 & e2 & _ & Hr & _)%run_bind_Ok_inv.
  unfold while_invalid in Hr. cbn [run] in Hr.
  destruct (reprompt _ _ _) as [[r rest] evs'] eqn:E. injection Hr as -> _ _.
  by eapply reprompt_valid.
Qed.

(** C19. The question always ends, in one of two ways.  When some typed line
    is accepted, it returns the move of the first such line, having consumed
    the lines up to it and refused each line before it with the message; when
    no typed line is accepted, it ends in [EOFError]. *)
Theorem ask_move_total prompt w :
  (exists bad good rest,
     typed w = bad ++ good :: rest /\
     Forall (fun line => ~ accepted line) bad /\ accepted good /\
     run (ask_move prompt) w =
     (Ok (str_lower good), World rest (entropy w) (drawn w),
      ask_events prompt bad good)) \/
  (Forall (fun line => ~ accepted line) (typed w) /\
   outcome_of (run (ask_move prompt) w) = Raise EOFError).
Proof.
  destruct w as [lines rnd n]. cbn [typed entropy drawn].
  destruct (list_split_first accepted lines)
    as [(bad & good & rest & -> & Hbad & Hgood)|Hbad].
  - left. exists bad, good, rest. by rewrite run_ask_move.
  - right. split; [done|]. by apply run_ask_move_eof.
Qed.

(** ** The phases, run *)

Lemma accepted_ascii line : accepted line -> str_ascii (str_lower line).
Proof. intros [mv ->]%elem_of_valid_moves. apply move_str_ascii. Qed.

Lemma run_new_secret lines rnd n :
  run new_secret (World lines rnd n) =
  (Ok (hex (fresh_bytes rnd n)), World lines rnd (n + 16),
   [Urandom (fresh_bytes rnd n)]).
Proof. done. Qed.

(** C23. A secret is the lower-case hexadecimal text, 32 digits long, of the
    next 16 bytes of the system's random source, which are consumed: the
    bytes can be read back from the text, and the next secret is made of the
    bytes after them. *)
Theorem new_secret_fresh w :
  exists data,
    run new_secret w =
    (Ok (hex data), World (typed w) (entropy w) (drawn w + 16), [Urandom data]) /\
    data = map (entropy w) (seq (drawn w) 16) /\
    length (hex data) = 32%nat /\
    Forall (fun c => is_hex_digit c = true) (hex data) /\
    unhex (hex data) = Some data.
Proof.
  destruct w as [lines rnd n]. exists (fresh_bytes rnd n).
  split_and!; [apply run_new_secret|done| |apply hex_is_hex|apply unhex_hex].
  unfold fresh_bytes. by rewrite length_hex, length_map, length_seq.
Qed.

Lemma run_commit_turn banner prompt generated send bad good rest rnd n :
  Forall (fun line => ~ accepted line) bad -> accepted good ->
  run (commit_turn banner prompt generated send) (World (bad ++ good :: rest) rnd n) =
  (Ok (LockedBox (str_lower good) (hex (fresh_bytes rnd n))
                 (sealed (str_lower good) (fresh_bytes rnd n))),
   World rest rnd (n + 16),
   commit_events banner prompt generated send bad good (fresh_bytes rnd n)
                 (sealed (str_lower good) (fresh_bytes rnd n))).
Proof.
  intros Hbad Hgood. unfold commit_turn.
  io_run ltac:(first
    [ io_call | by apply run_ask_move | apply run_new_secret
    | rewrite generate_commitment_ascii by eauto using accepted_ascii, hex_str_ascii;
      apply run_lift ]).
  reflexivity.
Qed.

Lemma run_commit_turn_eof banner prompt generated send lines rnd n :
  Forall (fun line => ~ accepted line) lines ->
  outcome_of (run (commit_turn banner prompt generated send) (World lines rnd n)) =
  Raise EOFError.
Proof.
  intros Hbad. unfold commit_turn. io_outcome io_call. by apply run_ask_move_eof.
Qed.

(** C21. What a commit turn stores, whatever is typed: when the turn returns,
    the stored move is one of the three move names, the stored secret is the
    hexadecimal text of the 16 bytes drawn in this turn, and the stored
    commitment is the digest of the two joined. *)
Theorem commit_turn_stores banner prompt generated send w box w' evs :
  run (commit_turn banner prompt generated send) w = (Ok box, w', evs) ->
  box_move box ∈ valid_moves /\
  box_secret box = hex (fresh_bytes (entropy w) (drawn w)) /\
  box_commitment box = sealed (box_move box) (fresh_bytes (entropy w) (drawn w)) /\
  entropy w' = entropy w /\ drawn w' = (drawn w + 16)%nat.
Proof.
  destruct w as [lines rnd n].
  destruct (list_split_first accepted lines)
    as [(bad & good & rest & -> & Hbad & Hgood)|Hbad].
  - rewrite run_commit_turn by done. by intros [= <- <- _].
  - intros Hr.
    pose proof (run_commit_turn_eof banner prompt generated send _ rnd n Hbad) as He.
    by rewrite Hr in He.
Qed.

Lemma run_reveal_phase line_A secret_A line_B secret_B rest rnd n :
  run reveal_phase (World (line_A :: secret_A :: line_B :: secret_B :: rest) rnd n) =
  (Ok (Reveals (str_lower line_A) secret_A (str_lower line_B) secret_B),
   World rest rnd n, reveal_events line_A secret_A line_B secret_B).
Proof. unfold reveal_phase, input. io_run io_call. reflexivity. Qed.

Lemma run_reveal_phase_eof lines rnd n :
  (length lines < 4)%nat ->
  outcome_of (run reveal_phase (World lines rnd n)) = Raise EOFError.
Proof.
  destruct lines as [|? [|? [|? [|? ?]]]]; simpl; intros; try done; lia.
Qed.

(** The verification phase prints its banner and makes the two checks; it
    raises when a recomputation does. *)
Lemma run_verify_phase cA cB r w :
  run (verify_phase cA cB r) w = (check_reveals cA cB r, w, [Print verifying_msg]).
Proof.
  unfold verify_phase, check_reveals.
  destruct (verify_commitment (revealed_move_A r) _ _) as [va|e] eqn:Ea.
  - destruct (verify_commitment (revealed_move_B r) _ _) as [vb|e] eqn:Eb.
    + io_run io_call. reflexivity.
    + by etrans; [do 2 (eapply run_bind_ok; [io_call|]); by apply run_bind_raise|].
  - by etrans; [eapply run_bind_ok; [io_call|]; by apply run_bind_raise|].
Qed.

(** The report prints its lines and does nothing else. *)
Lemma run_report va vb r w :
  run (report va vb r) w = (Ok (), w, Print <$> verdict_lines va vb r).
Proof.
  unfold report, verdict_lines. destruct (va && vb).
  - destruct (contains _ _); io_run io_call; reflexivity.
  - destruct va, vb; io_run io_call; reflexivity.
Qed.

(** ** The whole game *)

(** The game on a script, run. *)
Lemma run_play_game s rest rnd :
  script_ok s ->
  run play_game (World (script_lines s rest) rnd 0) =
  match checks s rnd with
  | Ok (va, vb) =>
      (Ok (), World rest rnd 32,
       script_events s rnd ++ (Print <$> verdict_lines va vb (script_reveals s)))
  | Raise e => (Raise e, World rest rnd 32, script_events s rnd)
  end.
Proof.
  intros (HbA & HgA & HbB & HgB).
  unfold play_game, script_lines, commit_A, commit_B.
  pose proof (run_verify_phase (box_commitment (script_box_A s rnd))
    (box_commitment (script_box_B s rnd)) (script_reveals s) (World rest rnd 32)) as Hv.
  unfold checks. destruct (check_reveals _ _ _) as [[va vb]|e].
  - io_run ltac:(first
      [ io_call | by apply run_commit_turn | apply run_reveal_phase
      | apply Hv | apply run_report ]).
    unfold script_events. rewrite <- !app_assoc. reflexivity.
  - etrans.
    { repeat (eapply run_bind_ok; [solve [first
        [ io_call | by apply run_commit_turn | apply run_reveal_phase ]]|cbn beta iota]).
      eapply run_bind_raise. apply Hv. }
    unfold script_events. rewrite <- ?app_assoc. reflexivity.
Qed.

(** C1. A game in which both players eventually type a move name and the four
    reveal lines are typed runs to the report: the program consumes exactly
    those lines and 32 random bytes, produces the events of the two commit
    turns and of the reveal phase in that order, and then prints the report
    for the two checks; when a recomputation raises, the exception ends the
    program after the verification banner with no report. *)
Theorem main_script s rest rnd :
  script_ok s ->
  main (script_lines s rest) rnd =
  match checks s rnd with
  | Ok (va, vb) =>
      (Ok (), World rest rnd 32,
       script_events s rnd ++ (Print <$> verdict_lines va vb (script_reveals s)))
  | Raise e => (Raise e, World rest rnd 32, script_events s rnd)
  end.
Proof. apply run_play_game. Qed.

(** C18. Every input is a script or too short: either the typed lines are
    those of a script (an accepted line for each player, then four lines),
    and the game runs to the report as [main_script] says, or the input ends
    before and the program ends in [EOFError]. *)
Theorem main_total lines rnd :
  (exists s rest, script_ok s /\ lines = script_lines s rest) \/
  outcome_of (main lines rnd) = Raise EOFError.
Proof.
  unfold main, play_game, commit_A, commit_B.
  destruct (list_split_first accepted lines)
    as [(bA & gA & l1 & -> & HbA & HgA)|Hbad];
    [|right; io_outcome io_call; by apply run_commit_turn_eof].
  destruct (list_split_first accepted l1)
    as [(bB & gB & l2 & -> & HbB & HgB)|Hbad];
    [|right; io_outcome ltac:(first [io_call|by apply run_commit_turn]);
      by apply run_commit_turn_eof].
  destruct (decide (length l2 < 4)%nat) as [Hlen|Hlen].
  - right. io_outcome ltac:(first [io_call|by apply run_commit_turn]).
    by apply run_reveal_phase_eof.
  - left. destruct l2 as [|lA [|sA [|lB [|sB rest]]]]; simpl in Hlen; try lia.
    by exists (Script bA gA bB gB lA sA lB sB), rest.
Qed.

(** ** What is printed before the report *)

Lemma printed_ask_events prompt bad good :
  printed (ask_events prompt bad good) = replicate (length bad) invalid_msg.
Proof. induction bad as [|line bad IH]; simpl; [done|]. by rewrite IH. Qed.

Lemma printed_commit_events banner prompt generated send bad good data c :
  printed (commit_events banner prompt generated send bad good data c) =
  banner :: replicate (length bad) invalid_msg ++
  [generated; send; lit "Your Commitment: " ++ c ++ NL; rule_msg].
Proof.
  unfold commit_events.
  change (printed (Print banner :: ?l)) with (banner :: printed l).
  by rewrite printed_app, printed_ask_events.
Qed.

End game_lemmas.

(** ** A game, evaluated *)

Lemma demo_script_ok : script_ok demo_script.
Proof. compute_done. Qed.

Lemma main_script_witness :
  main (script_lines demo_script []) demo_rnd =
  match checks demo_script demo_rnd with
  | Ok (va, vb) =>
      (Ok (), World [] demo_rnd 32,
       script_events demo_script demo_rnd ++
       (Print <$> verdict_lines va vb (script_reveals demo_script)))
  | Raise e => (Raise e, World [] demo_rnd 32, script_events demo_script demo_rnd)
  end.
Proof. apply main_script, demo_script_ok. Defined.

Lemma ask_move_valid_witness : lit "rock" ∈ valid_moves.
Proof.
  by apply (ask_move_valid prompt_A (World [lit "lizard"; lit "Rock"] demo_rnd 0)
              (lit "rock") (World [] demo_rnd 0)
              (ask_events prompt_A [lit "lizard"] (lit "Rock"))).
Defined.

Lemma commit_turn_stores_witness :
  let box := script_box_A demo_script demo_rnd in
  box_move box ∈ valid_moves /\
  box_secret box = hex (fresh_bytes demo_rnd 0) /\
  box_commitment box = sealed (box_move box) (fresh_bytes demo_rnd 0) /\
  demo_rnd = demo_rnd /\ 16%nat = (0 + 16)%nat.
Proof.
  apply (commit_turn_stores banner_A prompt_A generated_A send_A
           (World [lit "lizard"; lit "Rock"] demo_rnd 0) _ (World [] demo_rnd 16)
           (commit_events banner_A prompt_A generated_A send_A [lit "lizard"]
              (lit "Rock") (fresh_bytes demo_rnd 0)
              (sealed (lit "rock") (fresh_bytes demo_rnd 0)))).
  vm_compute. reflexivity.
Defined.
