(* ===== verification/Protocol.v ===== *)
(** * The protocol, end to end

    What a run of [Game.play_game] guarantees to the two players, stated on
    the events the program produces: an honest game prints the outcome the
    resolver gives for the committed moves; a reveal that does not open the
    commitment is reported and no result is printed; a printed result is
    explained by the committed moves, up to a collision of the hash -- with
    one exception, which the program has and the theorems make precise: the
    revealed move is never tested against the three move names, so a reveal
    that cuts the committed text at another place opens the commitment with
    a move that is none, and the resolver then answers "Player B wins!". *)

From Stdlib Require Import ZArith NArith Lia List Strings.String.
From stdpp Require Import prelude.
From S2P Require Import Prelude PyStr Runtime Sha256 Commitment Winner Console Game.

(** ** Definitions *)

(** The line of the report that carries the result. *)
Definition is_result_line (t : str) : bool := starts_with (NL ++ lit "Result: ") t.

(** The lines of the report that say something about the players. *)
Definition is_verdict_line (t : str) : bool :=
  is_result_line t || bool_decide (t ∈ [cheating_msg; mismatch_A_msg; mismatch_B_msg]).

(** Player A commits to rock and player B to scissors, as in
    [Game.demo_script]; player B then reveals the empty move, with the
    committed move written in front of the secret. *)
Definition forged_script : script :=
  Script [lit "lizard"] (lit "Rock") [] (lit "SCISSORS")
         (lit "rock") (lit "000102030405060708090a0b0c0d0e0f")
         (lit "") (lit "scissors101112131415161718191a1b1c1d1e1f").

(** Player A commits to rock and reveals paper with the true secret. *)
Definition switched_script : script :=
  Script [] (lit "rock") [] (lit "scissors")
         (lit "paper") (lit "000102030405060708090a0b0c0d0e0f")
         (lit "scissors") (lit "101112131415161718191a1b1c1d1e1f").


Section protocol.
Context `{Hashlib, Unicode}.

(** The concatenation a player committed to, and the one a player reveals. *)
Definition committed_A (s : script) (rnd : nat -> byte) : str :=
  str_lower (good_A s) ++ hex (fresh_bytes rnd 0).
Definition committed_B (s : script) (rnd : nat -> byte) : str :=
  str_lower (good_B s) ++ hex (fresh_bytes rnd 16).
Definition revealed_A (s : script) : str := str_lower (line_A s) ++ typed_secret_A s.
Definition revealed_B (s : script) : str := str_lower (line_B s) ++ typed_secret_B s.



(** ** Commitments of the game *)

Lemma generate_commitment_sealed move data :
  move ∈ valid_moves -> generate_commitment move (hex data) = Ok (sealed move data).
Proof.
  intros Hm. apply generate_commitment_ascii;
    [by apply valid_move_ascii|apply hex_str_ascii].
Qed.


(** The check of any reveal with the committed concatenation passes. *)
Lemma verify_sealed_concat move data rm rs :
  move ∈ valid_moves -> rm ++ rs = move ++ hex data ->
  verify_commitment rm rs (sealed move data) = Ok true.
Proof.
  intros Hm E. apply verify_commitment_true.
  rewrite <- (generate_commitment_sealed _ _ Hm).
  unfold generate_commitment. by rewrite E.
Qed.




(** The two checks of a script, one by one. *)
Lemma checks_Ok_inv s rnd va vb :
  checks s rnd = Ok (va, vb) <->
  verify_commitment (str_lower (line_A s)) (typed_secret_A s)
    (sealed (str_lower (good_A s)) (fresh_bytes rnd 0)) = Ok va /\
  verify_commitment (str_lower (line_B s)) (typed_secret_B s)
    (sealed (str_lower (good_B s)) (fresh_bytes rnd 16)) = Ok vb.
Proof.
  unfold checks, check_reveals, script_reveals, script_box_A, script_box_B.
  cbn [revealed_move_A revealed_move_B revealed_secret_A revealed_secret_B box_commitment].
  destruct (verify_commitment (str_lower (line_A s)) _ _) as [a|]; cbn [mbind result_bind];
    [|split; [done|by intros []]].
  destruct (verify_commitment (str_lower (line_B s)) _ _) as [b|]; cbn [mbind result_bind];
    [|split; [done|by intros []]].
  split; [by intros [= -> ->]|by intros [[= ->] [= ->]]].
Qed.

(** Both checks pass when both reveals have the committed concatenations. *)
Lemma checks_concat s rnd :
  script_ok s -> revealed_A s = committed_A s rnd -> revealed_B s = committed_B s rnd ->
  checks s rnd = Ok (true, true).
Proof.
  intros (_ & HgA & _ & HgB) EA EB. apply checks_Ok_inv.
  split; by apply verify_sealed_concat.
Qed.

(** ** The lines of the report *)

Lemma is_result_line_result res : is_result_line (result_line res) = true.
Proof.
  unfold is_result_line, result_line. rewrite app_assoc. apply starts_with_app.
Qed.

Lemma is_verdict_line_result res : is_verdict_line (result_line res) = true.
Proof. unfold is_verdict_line. by rewrite is_result_line_result. Qed.

(** Nothing printed before the report reads like a line of the verdict. *)
Lemma script_events_no_verdict s rnd :
  Forall (fun t => is_verdict_line t = false) (printed (script_events s rnd)).
Proof.
  unfold script_events. rewrite !printed_app, !printed_commit_events.
  repeat first [ apply Forall_app; split | apply Forall_cons; split
               | apply Forall_nil_2 | by apply Forall_replicate ]; done.
Qed.

(** The result line of a report: there is one exactly when both checks
    passed, and it carries [determine_winner] of the revealed moves. *)
Lemma result_line_verdict res va vb r :
  result_line res ∈ verdict_lines va vb r <->
  va && vb = true /\
  res = determine_winner (revealed_move_A r) (revealed_move_B r).
Proof.
  unfold verdict_lines. split.
  - destruct va, vb; cbn [andb negb app].
    + rewrite !elem_of_cons.
      intros [E|[E|[E|[E|Hin]]]]; try discriminate E.
      * apply app_inv_head in E. by apply app_inv_head in E.
      * destruct (contains _ _); [|by apply elem_of_nil in Hin].
        apply list_elem_of_singleton in Hin. discriminate Hin.
    + rewrite !elem_of_cons, elem_of_nil. intros [E|[E|[]]]; discriminate E.
    + rewrite !elem_of_cons, elem_of_nil. intros [E|[E|[]]]; discriminate E.
    + rewrite !elem_of_cons, elem_of_nil. intros [E|[E|[E|[]]]]; discriminate E.
  - intros (-> & ->). cbn [app]. rewrite !elem_of_cons. auto.
Qed.

(** The three lines of a cheating report: the alarm when a check failed, and
    for each player the mismatch line when that player's check failed. *)
Lemma cheating_verdict va vb r :
  (cheating_msg ∈ verdict_lines va vb r <-> va && vb = false) /\
  (mismatch_A_msg ∈ verdict_lines va vb r <-> va = false) /\
  (mismatch_B_msg ∈ verdict_lines va vb r <-> vb = false).
Proof.
  unfold verdict_lines.
  destruct va, vb; cbn [andb negb app]; [destruct (contains _ _); cbn [app]|..];
    rewrite !elem_of_cons, !elem_of_nil; split_and!; split; try done; auto;
    intros Hor; destruct_or!; done || discriminate.
Qed.

(** A line of the verdict is printed by the game exactly when it is a line
    of the report. *)
Lemma printed_verdict s rest rnd t :
  script_ok s -> is_verdict_line t = true ->
  Print t ∈ events_of (run play_game (World (script_lines s rest) rnd 0)) <->
  exists va vb, checks s rnd = Ok (va, vb) /\ t ∈ verdict_lines va vb (script_reveals s).
Proof.
  intros Hok Ht. rewrite run_play_game by done.
  assert (Print t ∉ script_events s rnd) as Hno.
  { rewrite <- elem_of_printed. intros Hin.
    pose proof (script_events_no_verdict s rnd) as Hall.
    rewrite Forall_forall in Hall. specialize (Hall _ Hin). congruence. }
  destruct (checks s rnd) as [[va vb]|e]; unfold events_of; cbn [snd].
  - rewrite elem_of_app, list_elem_of_fmap. split.
    + intros [?|(t' & [= <-] & Hin)]; [done|]. by exists va, vb.
    + intros (? & ? & [= <- <-] & Hin). right. by exists t.
  - split; [done|]. by intros (? & ? & ? & _).
Qed.


(** ** Honest games *)

(** C6. An honest game.  When both players reveal the move and the secret
    they committed to, the game returns, both checks pass, and the report
    shows the two committed moves and the outcome the resolver of the
    specification gives for them; the line about the proof of victory is
    printed exactly when the outcome is no tie. *)
Theorem main_honest s rest rnd :
  script_ok s -> honest_A s rnd -> honest_B s rnd ->
  exists mA mB,
    str_lower (good_A s) = move_str mA /\ str_lower (good_B s) = move_str mB /\
    main (script_lines s rest) rnd =
    (Ok (), World rest rnd 32,
     script_events s rnd ++
     (Print <$> [honest_msg;
                 lit "Player A chose: " ++ move_str mA;
                 lit "Player B chose: " ++ move_str mB;
                 result_line (outcome_str (resolve mA mB))]
                ++ (if decide (mA = mB) then [] else [proof_msg]))).
Proof.
  intros Hok [HmA HsA] [HmB HsB]. unfold main.
  rewrite run_play_game, checks_concat by
    (done || unfold revealed_A, revealed_B, committed_A, committed_B; congruence).
  destruct Hok as (_ & [mA EA]%elem_of_valid_moves & _ & [mB EB]%elem_of_valid_moves).
  exists mA, mB. split_and!; [done..|].
  unfold verdict_lines, script_reveals. cbn [revealed_move_A revealed_move_B andb].
  rewrite HmA, HmB, EA, EB, contains_wins, determine_winner_move_str.
  do 3 f_equal. case_bool_decide as Hne; case_decide as Heq; try done.
  - by subst.
  - by apply move_str_inj in Hne.
Qed.

(** ** A reveal that is no move *)

(** C3. Player B can always be declared the winner.  Whatever the two
    players committed to, if A reveals honestly and B reveals the empty move
    with, as secret, the committed move followed by the committed secret,
    then both checks pass, the report says that both players are honest, and
    the result is "Player B wins!": the revealed move is hashed, but never
    tested against the three move names. *)
Theorem main_forged_reveal s rest rnd :
  script_ok s -> honest_A s rnd ->
  line_B s = [] -> typed_secret_B s = committed_B s rnd ->
  main (script_lines s rest) rnd =
  (Ok (), World rest rnd 32,
   script_events s rnd ++
   (Print <$> [honest_msg;
               lit "Player A chose: " ++ str_lower (good_A s);
               lit "Player B chose: ";
               result_line b_wins_msg;
               proof_msg])).
Proof.
  intros Hok [HmA HsA] HlB HsB. unfold main.
  assert (checks s rnd = Ok (true, true)) as Hc.
  { apply checks_concat; [done|..].
    - unfold revealed_A, committed_A. congruence.
    - unfold revealed_B. by rewrite HlB, HsB, str_lower_nil. }
  rewrite run_play_game, Hc by done.
  destruct Hok as (_ & HgA & _). unfold accepted in HgA.
  unfold verdict_lines, script_reveals. cbn [revealed_move_A revealed_move_B andb].
  rewrite HmA, HlB, str_lower_nil, contains_wins, app_nil_r.
  assert (str_lower (good_A s) <> []) as Hne
    by (intros E; rewrite E in HgA; by apply not_elem_of_valid_moves_nil).
  rewrite b_wins_invalid, bool_decide_eq_true_2; [done..|].
  right. apply not_elem_of_valid_moves_nil.
Qed.

(** ** What a printed result means *)





(** ** Detection *)

(** The lines of the verdict the game prints, when both recomputations
    return. *)
Lemma report_printed s rest rnd va vb :
  script_ok s -> checks s rnd = Ok (va, vb) ->
  let evs := events_of (run play_game (World (script_lines s rest) rnd 0)) in
  (Print cheating_msg ∈ evs <-> (va && vb) = false) /\
  (Print mismatch_A_msg ∈ evs <-> va = false) /\
  (Print mismatch_B_msg ∈ evs <-> vb = false) /\
  (forall res, Print (result_line res) ∈ evs <->
     (va && vb) = true /\
     res = determine_winner (str_lower (line_A s)) (str_lower (line_B s))).
Proof.
  intros Hok Hc evs. unfold evs.
  destruct (cheating_verdict va vb (script_reveals s)) as (Hch & HmA & HmB).
  split_and!; [..|intros res];
    rewrite printed_verdict by (done || apply is_verdict_line_result);
    rewrite Hc;
    (split; [intros (? & ? & [= <- <-] & Hin)|intros Hin; exists va, vb; split; [done|]]).
  - by apply Hch. - by apply Hch.
  - by apply HmA. - by apply HmA.
  - by apply HmB. - by apply HmB.
  - by apply result_line_verdict in Hin.
  - by apply result_line_verdict.
Qed.

(** C8. The report is exact.  When both recomputations return, the alarm
    "CHEATING DETECTED!" is printed exactly when a check failed, the mismatch
    line of a player exactly when that player's check failed, and a result
    exactly when both checks passed, in which case it is [determine_winner]
    of the two revealed moves: no winner is computed after a failed check. *)
Theorem main_report_exact s rest rnd va vb :
  script_ok s -> checks s rnd = Ok (va, vb) ->
  let evs := events_of (main (script_lines s rest) rnd) in
  (Print cheating_msg ∈ evs <-> (va && vb) = false) /\
  (Print mismatch_A_msg ∈ evs <-> va = false) /\
  (Print mismatch_B_msg ∈ evs <-> vb = false) /\
  (forall res, Print (result_line res) ∈ evs <->
     (va && vb) = true /\
     res = determine_winner (str_lower (line_A s)) (str_lower (line_B s))).
Proof. apply report_printed. Qed.





End protocol.

(** ** The theorems on sample games *)

(** With SHA-256 and the ASCII case mapping, on [Game.demo_script] and its
    variants. *)

Lemma demo_honest : honest_A demo_script demo_rnd /\ honest_B demo_script demo_rnd.
Proof. by vm_compute. Qed.

Lemma forged_script_ok : script_ok forged_script.
Proof. compute_done. Qed.

Lemma switched_script_ok : script_ok switched_script.
Proof. compute_done. Qed.


Lemma main_honest_witness :
  exists mA mB,
    str_lower (good_A demo_script) = move_str mA /\
    str_lower (good_B demo_script) = move_str mB /\
    main (script_lines demo_script []) demo_rnd =
    (Ok (), World [] demo_rnd 32,
     script_events demo_script demo_rnd ++
     (Print <$> [honest_msg;
                 lit "Player A chose: " ++ move_str mA;
                 lit "Player B chose: " ++ move_str mB;
                 result_line (outcome_str (resolve mA mB))]
                ++ (if decide (mA = mB) then [] else [proof_msg]))).
Proof. apply main_honest; [apply demo_script_ok|apply demo_honest..]. Defined.

Lemma main_forged_reveal_witness :
  main (script_lines forged_script []) demo_rnd =
  (Ok (), World [] demo_rnd 32,
   script_events forged_script demo_rnd ++
   (Print <$> [honest_msg;
               lit "Player A chose: " ++ str_lower (good_A forged_script);
               lit "Player B chose: ";
               result_line b_wins_msg;
               proof_msg])).
Proof.
  apply main_forged_reveal; [apply forged_script_ok|by vm_compute..].
Defined.




Lemma main_report_exact_witness :
  let evs := events_of (main (script_lines switched_script []) demo_rnd) in
  (Print cheating_msg ∈ evs <-> (false && true) = false) /\
  (Print mismatch_A_msg ∈ evs <-> false = false) /\
  (Print mismatch_B_msg ∈ evs <-> true = false) /\
  (forall res, Print (result_line res) ∈ evs <->
     (false && true) = true /\
     res = determine_winner (str_lower (line_A switched_script))
                            (str_lower (line_B switched_script))).
Proof. apply main_report_exact; [apply switched_script_ok|by vm_compute]. Defined.


