(* ===== verification/Orchestrator.v ===== *)
(** * The orchestrator as a state machine

    The specification describes the game as a machine with six states,
    strictly ordered.  The source has no state type: its states are the
    program points of [play_game] between the phases.  This file makes them
    explicit.  [phase] names the program points with the variables alive at
    each; [advance] runs the code of one phase ([Game.commit_A],
    [Game.commit_B], [Game.reveal_phase], [Game.verify_phase] followed by
    [Game.report]); [step] is the transition relation this gives on
    configurations, labelled with the events produced.  [play_game] is
    equivalent to four transitions from the first state, so what is proved of
    reachable configurations by induction on [steps] holds of the program.
    The second half relates the program's machine to the machine of the
    specification, whose reveals carry moves and not strings. *)

From Stdlib Require Import ZArith NArith Lia List Strings.String.
From stdpp Require Import prelude.
From S2P Require Import Prelude PyStr Runtime Sha256 Commitment Winner Console Game Protocol.

(** ** States *)

(** The program points of [play_game], under the names the specification
    gives to its states. *)
Inductive phase : Type :=
| AwaitingCommitA
| AwaitingCommitB (box_A : locked_box)
| AwaitingReveals (box_A box_B : locked_box)
| Verifying (box_A box_B : locked_box) (r : reveals)
| Resolved (result : str)
| CheatDetected (a_failed b_failed : bool).

Definition terminal (p : phase) : bool :=
  match p with
  | Resolved _ | CheatDetected _ _ => true
  | _ => false
  end.

(** The place of a state in the order of the game. *)
Definition rank (p : phase) : nat :=
  match p with
  | AwaitingCommitA => 0
  | AwaitingCommitB _ => 1
  | AwaitingReveals _ _ => 2
  | Verifying _ _ _ => 3
  | Resolved _ | CheatDetected _ _ => 4
  end.

(** The state after the report. *)
Definition verdict (is_A_valid is_B_valid : bool) (r : reveals) : phase :=
  if is_A_valid && is_B_valid
  then Resolved (determine_winner (revealed_move_A r) (revealed_move_B r))
  else CheatDetected (negb is_A_valid) (negb is_B_valid).

(** A state of the program with the world it runs in. *)
Definition config : Type := phase * world.

(** ** The machine of the specification *)

(** The states of section 4.3: commitments are strings, reveals carry a move
    of the enumerated type and a secret. *)
Inductive spec_state : Type :=
| SAwaitingCommitA
| SAwaitingCommitB (commitment_A : str)
| SAwaitingReveals (commitment_A commitment_B : str)
| SVerifying (commitment_A commitment_B : str)
             (move_A : move) (secret_A : str) (move_B : move) (secret_B : str)
| SResolved (o : outcome)
| SCheatDetected (a_failed b_failed : bool).

Section orchestrator.
Context `{Hashlib, Unicode}.

(** ** Transitions of the program *)

(** The code between one program point and the next. *)
Definition advance (p : phase) : IO phase :=
  match p with
  | AwaitingCommitA =>
      box_A ← commit_A; mret (AwaitingCommitB box_A)
  | AwaitingCommitB box_A =>
      box_B ← commit_B; mret (AwaitingReveals box_A box_B)
  | AwaitingReveals box_A box_B =>
      r ← reveal_phase; mret (Verifying box_A box_B r)
  | Verifying box_A box_B r =>
      '(is_A_valid, is_B_valid) ←
        verify_phase (box_commitment box_A) (box_commitment box_B) r;
      report is_A_valid is_B_valid r;;
      mret (verdict is_A_valid is_B_valid r)
  | Resolved _ | CheatDetected _ _ => mret p
  end.

(** [play_game] as four transitions; the value is the last state. *)
Definition orchestrate : IO phase :=
  print welcome_msg;;
  print phases_msg;;
  p1 ← advance AwaitingCommitA;
  p2 ← advance p1;
  p3 ← advance p2;
  advance p3.

(** One transition, with the events it produces.  A phase that raises makes
    no transition. *)
Inductive step : config -> list event -> config -> Prop :=
| step_commit_A w box_A w' evs :
    run commit_A w = (Ok box_A, w', evs) ->
    step (AwaitingCommitA, w) evs (AwaitingCommitB box_A, w')
| step_commit_B box_A w box_B w' evs :
    run commit_B w = (Ok box_B, w', evs) ->
    step (AwaitingCommitB box_A, w) evs (AwaitingReveals box_A box_B, w')
| step_reveal box_A box_B w r w' evs :
    run reveal_phase w = (Ok r, w', evs) ->
    step (AwaitingReveals box_A box_B, w) evs (Verifying box_A box_B r, w')
| step_verify box_A box_B r w is_A_valid is_B_valid :
    check_reveals (box_commitment box_A) (box_commitment box_B) r =
      Ok (is_A_valid, is_B_valid) ->
    step (Verifying box_A box_B r, w)
         (Print verifying_msg :: (Print <$> verdict_lines is_A_valid is_B_valid r))
         (verdict is_A_valid is_B_valid r, w).

(** Sequences of transitions from [c0], the events joined. *)
Inductive steps (c0 : config) : list event -> config -> Prop :=
| steps_refl : steps c0 [] c0
| steps_snoc evs c evs' c' :
    steps c0 evs c -> step c evs' c' -> steps c0 (evs ++ evs') c'.

(** ** The invariant *)

(** A locked box made in a commit turn that drew the bytes at position [n]:
    a move name, the text of those bytes, and the digest of the two. *)
Definition box_ok (rnd : nat -> byte) (n : nat) (box : locked_box) : Prop :=
  box_move box ∈ valid_moves /\
  box_secret box = hex (fresh_bytes rnd n) /\
  box_commitment box = sealed (box_move box) (fresh_bytes rnd n).

(** What holds at every program point of a game started with [n0] bytes
    drawn from the source [rnd]. *)
Definition phase_ok (rnd : nat -> byte) (n0 : nat) (c : config) : Prop :=
  entropy c.2 = rnd /\
  match c.1 with
  | AwaitingCommitA => drawn c.2 = n0
  | AwaitingCommitB box_A =>
      box_ok rnd n0 box_A /\ drawn c.2 = (n0 + 16)%nat
  | AwaitingReveals box_A box_B | Verifying box_A box_B _ =>
      box_ok rnd n0 box_A /\ box_ok rnd (n0 + 16) box_B /\
      drawn c.2 = (n0 + 32)%nat
  | Resolved _ | CheatDetected _ _ => drawn c.2 = (n0 + 32)%nat
  end.

(** ** Transitions of the specification *)

(** [commit] and [verify] of section 4.1, on a move of the enumerated type. *)
Definition commit (m : move) (secret : str) : result str :=
  generate_commitment (move_str m) secret.
Definition verify (m : move) (secret commitment : str) : result bool :=
  verify_commitment (move_str m) secret commitment.

Inductive spec_step : spec_state -> spec_state -> Prop :=
| spec_commit_A m secret c :
    commit m secret = Ok c ->
    spec_step SAwaitingCommitA (SAwaitingCommitB c)
| spec_commit_B cA m secret c :
    commit m secret = Ok c ->
    spec_step (SAwaitingCommitB cA) (SAwaitingReveals cA c)
| spec_reveal cA cB mA sA mB sB :
    spec_step (SAwaitingReveals cA cB) (SVerifying cA cB mA sA mB sB)
| spec_resolve cA cB mA sA mB sB :
    verify mA sA cA = Ok true -> verify mB sB cB = Ok true ->
    spec_step (SVerifying cA cB mA sA mB sB) (SResolved (resolve mA mB))
| spec_cheat cA cB mA sA mB sB va vb :
    verify mA sA cA = Ok va -> verify mB sB cB = Ok vb -> (va && vb) = false ->
    spec_step (SVerifying cA cB mA sA mB sB) (SCheatDetected (negb va) (negb vb)).

(** A state of the program and the state of the specification it stands
    for.  A program state in which a revealed string is no move name stands
    for none. *)
Inductive abstracts : phase -> spec_state -> Prop :=
| abs_commit_A : abstracts AwaitingCommitA SAwaitingCommitA
| abs_commit_B box_A :
    abstracts (AwaitingCommitB box_A) (SAwaitingCommitB (box_commitment box_A))
| abs_reveals box_A box_B :
    abstracts (AwaitingReveals box_A box_B)
              (SAwaitingReveals (box_commitment box_A) (box_commitment box_B))
| abs_verifying box_A box_B mA sA mB sB :
    abstracts (Verifying box_A box_B (Reveals (move_str mA) sA (move_str mB) sB))
              (SVerifying (box_commitment box_A) (box_commitment box_B) mA sA mB sB)
| abs_resolved o : abstracts (Resolved (outcome_str o)) (SResolved o)
| abs_cheat a b : abstracts (CheatDetected a b) (SCheatDetected a b).

(** The reveals of a state are move names. *)
Definition reveals_valid (p : phase) : Prop :=
  match p with
  | Verifying _ _ r =>
      revealed_move_A r ∈ valid_moves /\ revealed_move_B r ∈ valid_moves
  | _ => True
  end.

End orchestrator.
